(** * Question-bank application: a shallow embedding and its properties

    The development embeds the question-bank component (the TypeScript
    component with validation, statistics and import, and the earlier plain
    JavaScript component) and proves properties of its state manager:
    validation, shuffling, index clamping, statistics, load and import. *)

From Stdlib Require Import QArith Qround Qminmax.
From Stdlib Require Import SpecFloat.
From Stdlib Require Import String Ascii DecimalString.
From Stdlib Require Import Sorted Permutation.
From Stdlib Require OrderedTypeEx.
From stdpp Require Import gmap list strings.

Local Open Scope string_scope.
Set Warnings "-register-all".

(** ** JavaScript numbers

    A number is a double: not-a-number, an infinity, or a finite value,
    which is a rational.  Comparisons, [Math.min], [Math.max], [Math.round]
    and [Number.isFinite] are exact on this representation.  A product and a
    quotient are the exact result rounded to the nearest double, ties to
    even, as IEEE 754 defines them ([round_double], computed with the
    binary64 operations of [SpecFloat]).  A sum is exact: the program adds 0
    or 1 to a counter or to an index, and doubles add whole numbers exactly
    up to 2^53.  Beyond 2^53, and for an index that is a fraction, the
    program's sum is the exact one rounded to a double; what is stated below
    of the value of a sum is stated for whole numbers up to 2^53.  The sign
    of a zero is not tracked: it is observable only through a division by
    zero. *)

Inductive jsnum : Type :=
| NaN
| PosInf
| NegInf
| Fin (q : Q).

Definition num_of_nat (n : nat) : jsnum := Fin (inject_Z (Z.of_nat n)).

Definition Number_isFinite_num (x : jsnum) : bool :=
  match x with Fin _ => true | _ => false end.

(** [x < y] *)
Definition num_ltb (x y : jsnum) : bool :=
  match x, y with
  | NaN, _ | _, NaN => false
  | PosInf, _ => false
  | _, PosInf => true
  | _, NegInf => false
  | NegInf, _ => true
  | Fin p, Fin q => negb (Qle_bool q p)
  end.

(** [x >= y] *)
Definition num_geb (x y : jsnum) : bool :=
  match x, y with
  | NaN, _ | _, NaN => false
  | PosInf, _ => true
  | _, NegInf => true
  | NegInf, _ => false
  | _, PosInf => false
  | Fin p, Fin q => Qle_bool q p
  end.

(** [x > y] *)
Definition num_gtb (x y : jsnum) : bool := num_ltb y x.

(** [x === y] on numbers *)
Definition num_eqb (x y : jsnum) : bool :=
  match x, y with
  | PosInf, PosInf | NegInf, NegInf => true
  | Fin p, Fin q => Qeq_bool p q
  | _, _ => false
  end.

(** [x + y] *)
Definition num_add (x y : jsnum) : jsnum :=
  match x, y with
  | NaN, _ | _, NaN => NaN
  | PosInf, NegInf | NegInf, PosInf => NaN
  | PosInf, _ | _, PosInf => PosInf
  | NegInf, _ | _, NegInf => NegInf
  | Fin p, Fin q => Fin (p + q)
  end.

(** The sign of a number: [Some true] when negative, [None] for zero and
    not-a-number. *)
Definition num_sign (x : jsnum) : option bool :=
  match x with
  | NaN => None
  | PosInf => Some false
  | NegInf => Some true
  | Fin p => if Qeq_bool p 0 then None else Some (negb (Qle_bool 0 p))
  end.

Definition inf_of_sign (neg : bool) : jsnum := if neg then NegInf else PosInf.

(** The value of a binary64 float. *)
Definition num_of_double (f : spec_float) : jsnum :=
  match f with
  | S754_zero _ => Fin 0
  | S754_infinity s => inf_of_sign s
  | S754_nan => NaN
  | S754_finite s m e =>
      let z := if s then Zneg m else Zpos m in
      match e with
      | Z0 => Fin (z # 1)
      | Zpos k => Fin ((z * 2 ^ Zpos k) # 1)
      | Zneg k => Fin (Qred (z # 2 ^ k))
      end
  end.

(** The double nearest to a rational, ties to even: the quotient of its
    numerator by its denominator in binary64, 53 bits of precision. *)
Definition round_double (q : Q) : jsnum :=
  match Qnum q with
  | Z0 => Fin 0
  | Zpos n =>
      num_of_double
        (SFdiv 53 1024 (S754_finite false n 0) (S754_finite false (Qden q) 0))
  | Zneg n =>
      num_of_double
        (SFdiv 53 1024 (S754_finite true n 0) (S754_finite false (Qden q) 0))
  end.

(** [x * y] *)
Definition num_mul (x y : jsnum) : jsnum :=
  match x, y with
  | NaN, _ | _, NaN => NaN
  | Fin p, Fin q => round_double (p * q)
  | _, _ =>
      match num_sign x, num_sign y with
      | Some a, Some b => inf_of_sign (xorb a b)
      | _, _ => NaN
      end
  end.

(** [x / y] *)
Definition num_div (x y : jsnum) : jsnum :=
  match x, y with
  | NaN, _ | _, NaN => NaN
  | Fin p, Fin q =>
      if Qeq_bool q 0
      then match num_sign x with Some a => inf_of_sign a | None => NaN end
      else round_double (p / q)
  | Fin _, _ => Fin 0
  | _, Fin _ =>
      match num_sign x, num_sign y with
      | Some a, Some b => inf_of_sign (xorb a b)
      | Some a, None => inf_of_sign a
      | None, _ => NaN
      end
  | _, _ => NaN
  end.

(** [Math.round]: the nearest integer, a tie going up. *)
Definition Math_round (x : jsnum) : jsnum :=
  match x with
  | Fin p => Fin (inject_Z (Qfloor (p + (1 # 2))))
  | _ => x
  end.

(** [Math.min] and [Math.max] of two numbers. *)
Definition Math_min (x y : jsnum) : jsnum :=
  match x, y with
  | NaN, _ | _, NaN => NaN
  | NegInf, _ | _, NegInf => NegInf
  | PosInf, z | z, PosInf => z
  | Fin p, Fin q => Fin (Qmin p q)
  end.

Definition Math_max (x y : jsnum) : jsnum :=
  match x, y with
  | NaN, _ | _, NaN => NaN
  | PosInf, _ | _, PosInf => PosInf
  | NegInf, z | z, NegInf => z
  | Fin p, Fin q => Fin (Qmax p q)
  end.

(** A number that is a whole number: [Number.isInteger]. *)
Definition Number_isInteger_num (x : jsnum) : bool :=
  match x with
  | Fin p => Qeq_bool p (inject_Z (Qfloor p))
  | _ => false
  end.

(** ** JavaScript values

    The values that [JSON.parse] builds, and [undefined].  An object lists
    its own properties in enumeration order, each key once; an array lists
    its elements. *)

Inductive jsval : Type :=
| JUndefined
| JNull
| JBool (b : bool)
| JNum (n : jsnum)
| JStr (s : string)
| JArr (elems : list jsval)
| JObj (props : list (string * jsval)).

Inductive jstype : Type :=
| TUndefined | TObject | TBoolean | TNumber | TString.

#[global] Instance jstype_eq_dec : EqDecision jstype.
Proof. solve_decision. Defined.

Definition typeof (v : jsval) : jstype :=
  match v with
  | JUndefined => TUndefined
  | JNull | JArr _ | JObj _ => TObject
  | JBool _ => TBoolean
  | JNum _ => TNumber
  | JStr _ => TString
  end.

(** Truthiness, as [!v], [v && ...] and [v || ...] test it. *)
Definition truthy (v : jsval) : bool :=
  match v with
  | JUndefined | JNull => false
  | JBool b => b
  | JNum NaN => false
  | JNum (Fin p) => negb (Qeq_bool p 0)
  | JNum _ => true
  | JStr s => negb (String.eqb s "")
  | JArr _ | JObj _ => true
  end.

Definition Array_isArray (v : jsval) : bool :=
  match v with JArr _ => true | _ => false end.

Definition Number_isFinite (v : jsval) : bool :=
  match v with JNum x => Number_isFinite_num x | _ => false end.

Definition jnat (n : nat) : jsval := JNum (num_of_nat n).
Definition jint (z : Z) : jsval := JNum (Fin (inject_Z z)).

(** ** Property reads

    The property names the source reads by name.  No built-in prototype
    provides any of them, so reading one is a lookup among the own
    properties of an object; it is [undefined] on an array, a string, a
    number or a boolean.  (The source reads them only from values it has
    tested to be truthy, or through [?.]; the read is [undefined] on [null]
    and [undefined].) *)

Inductive field : Type :=
| f_id | f_topic | f_stem | f_choices | f_answer | f_explanation
| f_questions
| f_questionBank | f_index | f_showAccuracy | f_stats
| f_total | f_correct.

Definition field_name (f : field) : string :=
  match f with
  | f_id => "id" | f_topic => "topic" | f_stem => "stem"
  | f_choices => "choices" | f_answer => "answer"
  | f_explanation => "explanation"
  | f_questions => "questions"
  | f_questionBank => "questionBank" | f_index => "index"
  | f_showAccuracy => "showAccuracy" | f_stats => "stats"
  | f_total => "total" | f_correct => "correct"
  end.

Fixpoint assoc (k : string) (l : list (string * jsval)) : option jsval :=
  match l with
  | [] => None
  | (k', v) :: l' => if String.eqb k k' then Some v else assoc k l'
  end.

Definition get (v : jsval) (f : field) : jsval :=
  match v with
  | JObj l => default JUndefined (assoc (field_name f) l)
  | _ => JUndefined
  end.

(** [arr[n]] for a number [n]: an element when [n] is a whole number within
    the array, [undefined] otherwise. *)
Definition arr_at (l : list jsval) (n : jsnum) : jsval :=
  match n with
  | Fin p =>
      if Number_isInteger_num n && (0 <=? Qfloor p)%Z
      then default JUndefined (l !! Z.to_nat (Qfloor p))
      else JUndefined
  | _ => JUndefined
  end.

(** ** The validator *)

Definition is_type (t : jstype) (v : jsval) : bool := bool_decide (typeof v = t).

Definition isValidQuestion (q : jsval) : bool :=
  truthy q &&
  (is_type TNumber (get q f_id) || is_type TString (get q f_id)) &&
  is_type TString (get q f_topic) &&
  is_type TString (get q f_stem) &&
  match get q f_choices with
  | JArr cs =>
      forallb (is_type TString) cs &&
      match get q f_answer with
      | JNum a =>
          Number_isFinite_num a &&
          num_geb a (Fin 0) &&
          num_ltb a (num_of_nat (length cs)) &&
          is_type TString (get q f_explanation)
      | _ => false
      end
  | _ => false
  end.

(** ** The index clamp *)

Definition clampIndex (idx : jsval) (length : nat) : jsnum :=
  match idx with
  | JNum x =>
      if negb (Number_isFinite_num x) || (length <=? 0)%nat then Fin 0
      else Math_max (Fin 0) (Math_min x (Fin (inject_Z (Z.of_nat length - 1))))
  | _ => Fin 0
  end.

(** ** The seed bank and the questions of the development tests *)

Definition question (qid : jsval) (topic stem : string) (choices : list string)
    (answer : jsnum) (explanation : string) : jsval :=
  JObj [("id", qid); ("topic", JStr topic); ("stem", JStr stem);
        ("choices", JArr (JStr <$> choices)); ("answer", JNum answer);
        ("explanation", JStr explanation)].

Definition initialQuestions : list jsval :=
  [ question (jnat 1) "Physiology"
      "Left ventricular (LV) isovolumic contraction continues until what cardiac event occurs?"
      [ "Mitral valve opens"; "Passive atrial filling";
        "Increased ventricular volume"; "Aortic valve opens";
        "Aortic pressure greater than left ventricular" ]
      (num_of_nat 3)
      "During isovolumic contraction, both valves are closed. Contraction continues until LV pressure exceeds aortic pressure, causing the aortic valve to open.";
    question (jnat 2) "Coronary Physiology"
      "Which metabolic factor regulating coronary blood flow is derived from breakdown of high-energy phosphates?"
      [ "Prostaglandin"; "Nitric oxide"; "Endothelin-1"; "Adenosine"; "VEGF" ]
      (num_of_nat 3)
      "Adenosine is produced from ATP breakdown during low oxygen states and causes potent coronary vasodilation." ].

(** The question of [runDevTests]. *)
Definition good : jsval := question (jnat 1) "T" "S" ["A"; "B"] (num_of_nat 0) "E".

(** [{ ...q, answer: a }] for a question built by [question]. *)
Definition with_answer (a : jsnum) : jsval :=
  question (jnat 1) "T" "S" ["A"; "B"] a "E".

(** ** Own properties of objects, arrays and strings

    A string of the model is a sequence of code units.  [index_key i] is the
    property key of the array index [i]; [array_index k] reads a key back
    when it is the canonical decimal form of an index below 2^32 - 1. *)

Definition index_key (i : nat) : string :=
  NilZero.string_of_uint (N.to_uint (N.of_nat i)).

Definition array_index (k : string) : option N :=
  match NilZero.uint_of_string k with
  | Some u =>
      let n := N.of_uint u in
      if String.eqb (NilZero.string_of_uint (N.to_uint n)) k && (n <? 4294967295)%N
      then Some n else None
  | None => None
  end.

Definition units (s : string) : list jsval :=
  (fun c => JStr (String c EmptyString)) <$> list_ascii_of_string s.

Definition indexed (l : list jsval) : list (string * jsval) :=
  imap (fun i v => (index_key i, v)) l.

(** The own property [k] of a value, if it has one. *)
Definition own_prop (o : jsval) (k : string) : option jsval :=
  let elems_prop (l : list jsval) :=
    if String.eqb k "length" then Some (jnat (length l))
    else match array_index k with
         | Some i => l !! N.to_nat i
         | None => None
         end in
  match o with
  | JObj l => assoc k l
  | JArr l => elems_prop l
  | JStr s => elems_prop (units s)
  | _ => None
  end.

(** The own enumerable properties, in enumeration order: what
    [Object.entries(o)] lists and what [{ ...o }] copies. *)
Definition own_entries (o : jsval) : list (string * jsval) :=
  match o with
  | JObj l => l
  | JArr l => indexed l
  | JStr s => indexed (units s)
  | _ => []
  end.

(** A new index key goes among the index keys, in ascending order. *)
Fixpoint insert_index (n : N) (k : string) (v : jsval)
    (l : list (string * jsval)) : list (string * jsval) :=
  match l with
  | [] => [(k, v)]
  | (k', v') :: l' =>
      match array_index k' with
      | Some m => if (m <? n)%N then (k', v') :: insert_index n k v l'
                  else (k, v) :: l
      | None => (k, v) :: l
      end
  end.

Fixpoint replace_prop (k : string) (v : jsval)
    (l : list (string * jsval)) : list (string * jsval) :=
  match l with
  | [] => []
  | (k', v') :: l' =>
      if String.eqb k k' then (k', v) :: l' else (k', v') :: replace_prop k v l'
  end.

(** [{ ...props, [k]: v }]: an existing key keeps its place and takes the
    new value; a new key is added, an index key among the index keys and any
    other key at the end. *)
Definition obj_set (l : list (string * jsval)) (k : string) (v : jsval)
    : list (string * jsval) :=
  match assoc k l with
  | Some _ => replace_prop k v l
  | None =>
      match array_index k with
      | Some n => insert_index n k v l
      | None => l ++ [(k, v)]
      end
  end.

(** What a read [o[k]] with a computed key finds. *)
Inductive found : Type :=
| Own (v : jsval)     (* an own property *)
| Inherited           (* a member of a built-in prototype: a function or an
                         object, truthy, without [total] and [correct] *)
| Missing.            (* nothing: [undefined] *)

(** ** Statistics *)

Section Host.

(** The host's conversions: [ToString] of a value that is not a string,
    [StringToNumber], and the names that the prototype chain of a value
    provides ([constructor], [toString], ... for an object). *)
Variable ToString : jsval -> string.
Variable StringToNumber : string -> jsnum.
Variable inherits : jsval -> string -> bool.

Definition to_string (v : jsval) : string :=
  match v with JStr s => s | _ => ToString v end.

Definition to_number (v : jsval) : jsnum :=
  match v with
  | JNum x => x
  | JUndefined => NaN
  | JNull => Fin 0
  | JBool b => Fin (if b then 1 else 0)
  | JStr s => StringToNumber s
  | JArr _ | JObj _ => StringToNumber (ToString v)
  end.

(** [a + b]: a concatenation when an operand is a string, an array or an
    object, a sum of numbers otherwise. *)
Definition js_add (a b : jsval) : jsval :=
  let textual v :=
    match v with JStr _ | JArr _ | JObj _ => true | _ => false end in
  if textual a || textual b
  then JStr (to_string a +:+ to_string b)
  else JNum (num_add (to_number a) (to_number b)).

Definition lookup (o : jsval) (k : string) : found :=
  match own_prop o k with
  | Some v => Own v
  | None => if inherits o k then Inherited else Missing
  end.

(** The updater that [handleCheck] passes to [setStats], for the property
    key [k] of the topic. *)
Definition recordAnswer (prev : jsval) (k : string) (isCorrect : bool) : jsval :=
  let '(total, correct) :=
    match lookup prev k with
    | Own v => if truthy v then (get v f_total, get v f_correct)
               else (jnat 0, jnat 0)
    | Inherited => (JUndefined, JUndefined)
    | Missing => (jnat 0, jnat 0)
    end in
  JObj (obj_set (own_entries prev) k
          (JObj [("total", js_add total (jnat 1));
                 ("correct", js_add correct (jnat (if isCorrect then 1 else 0)))])).

(** The percentage that the accuracy panel prints for an entry:
    [Math.round((s.correct / s.total) * 100)]. *)
Definition accuracy (s : jsval) : jsnum :=
  Math_round
    (num_mul (num_div (to_number (get s f_correct)) (to_number (get s f_total)))
             (Fin 100)).

End Host.

(** The filter of [accuracyByTopic]. *)
Definition answered (e : string * jsval) : bool :=
  truthy e.2 &&
  match get e.2 f_total with
  | JNum t => num_gtb t (Fin 0)
  | _ => false
  end.

Section Sort.

(** [localeCompare]: only the sign of its result matters. *)
Variable localeCompare : string -> string -> comparison.

Definition key_le (a b : string * jsval) : bool :=
  match localeCompare a.1 b.1 with Gt => false | _ => true end.

(** Ascending order of two entries by their topic names. *)
Definition ascending (a b : string * jsval) : Prop :=
  localeCompare a.1 b.1 <> Gt.

(** [Array.prototype.sort] is stable: an entry goes before the first
    entry that does not sort before it. *)
Fixpoint sort_insert (x : string * jsval) (l : list (string * jsval))
    : list (string * jsval) :=
  match l with
  | [] => [x]
  | y :: l' => if key_le x y then x :: l else y :: sort_insert x l'
  end.

Definition sort_entries (l : list (string * jsval)) : list (string * jsval) :=
  foldr sort_insert [] l.

Definition accuracyByTopic (stats : jsval) : list (string * jsval) :=
  sort_entries (filter (fun e => answered e = true)
                  (if truthy stats then own_entries stats else [])).

End Sort.

(** ** The shuffler

    [Math.random] is a source of draws: its [k]-th call returns [random k].
    The functions that draw take the number of calls made so far and return
    the number of calls made after them. *)

Section Shuffle.

Variable random : nat -> Q.
Context {A : Type}.

(** [Math.floor(Math.random() * (i + 1))] at the [k]-th call.  The product
    is taken exactly, where the program rounds it to a double before it
    takes the floor: for a product just below a whole number the program
    can draw the index after the one drawn here.  Either index is within
    [0, i]; what is proved of the shuffle holds for any index drawn there. *)
Definition draw (k i : nat) : nat :=
  Z.to_nat (Qfloor (random k * inject_Z (Z.of_nat (i + 1)))).

(** [[out[i], out[j]] = [out[j], out[i]]], for [i] and [j] within [out]
    (the loop below keeps [j <= i < out.length]). *)
Definition swap (out : list A) (i j : nat) : list A :=
  match out !! i, out !! j with
  | Some x, Some y => <[j := x]> (<[i := y]> out)
  | _, _ => out
  end.

(** [for (let i = ...; i > 0; i--) { ... }] on the contents of [out]. *)
Fixpoint shuffle_from (i k : nat) (out : list A) : list A * nat :=
  match i with
  | O => (out, k)
  | S i' => shuffle_from i' (S k) (swap out i (draw k i))
  end.

(** The contents of [shuffleArray(arr)]. *)
Definition shuffleList (k : nat) (arr : list A) : list A * nat :=
  shuffle_from (length arr - 1) k arr.

(** Arrays live in a store, at references; [shuffleArray] allocates [out],
    copies [arr] into it, swaps in place and returns the reference. *)
Definition shuffle_loop (out : positive)
    : nat -> nat -> gmap positive (list A) -> gmap positive (list A) * nat :=
  fix go (i k : nat) (σ : gmap positive (list A)) :=
    match i with
    | O => (σ, k)
    | S i' => go i' (S k) (alter (fun l => swap l i (draw k i)) out σ)
    end.

Definition shuffleArray (σ : gmap positive (list A)) (arr : positive) (k : nat)
    : option (positive * gmap positive (list A) * nat) :=
  match σ !! arr with
  | None => None
  | Some s =>
      let out := fresh (dom σ) in
      let '(σ', k') := shuffle_loop out (length s - 1) k (<[out := s]> σ) in
      Some (out, σ', k')
  end.

End Shuffle.

(** ** The component *)

Record State : Type := mkState {
  questionBank : list jsval;
  index : jsnum;
  selected : option nat;
  showAnswer : bool;
  showExplanation : bool;
  stats : jsval;
  showAccuracy : bool;
  importError : string;
}.

(** What [JSON.parse] makes of a text. *)
Inductive parse_result : Type :=
| Parsed (v : jsval)
| SyntaxError.

Definition safeParseJSON (r : parse_result) : jsval :=
  match r with
  | Parsed v => v
  | SyntaxError => JNull
  end.

(** What [localStorage.getItem] returns: [null], the empty text, or a text
    with what [JSON.parse] makes of it. *)
Inductive item : Type :=
| Absent
| Empty
| Holds (r : parse_result).

(** The file of an import: [file.text()] fails, or gives a text with what
    [JSON.parse] makes of it. *)
Inductive file : Type :=
| Unreadable
| Readable (r : parse_result).

Definition structural_error : string :=
  "Import failed: JSON must be an array of questions (or { questions: [...] }).".
Definition schema_error : string :=
  "Import failed: One or more questions are missing required fields (topic/stem/choices/answer/explanation).".
Definition read_error : string :=
  "Import failed: Could not read/parse the JSON file.".

Definition totalQuestions (s : State) : nat := length (questionBank s).

(** [q], the current question or [undefined]. *)
Definition currentQuestion (s : State) : jsval :=
  arr_at (questionBank s) (clampIndex (JNum (index s)) (totalQuestions s)).

Definition resetPerQuestionUI (s : State) : State :=
  mkState (questionBank s) (index s) None false false
          (stats s) (showAccuracy s) (importError s).

(** [selected === q.answer] *)
Definition selected_is (i : nat) (answer : jsval) : bool :=
  match answer with
  | JNum a => num_eqb (num_of_nat i) a
  | _ => false
  end.

(** [x % n] for a length [n] *)
Definition num_rem (x : jsnum) (n : nat) : jsnum :=
  match x with
  | Fin p =>
      if (n =? 0)%nat then NaN
      else
        let d := inject_Z (Z.of_nat n) in
        let t := if Qle_bool 0 p then Qfloor (p / d) else Qceiling (p / d) in
        Fin (p - d * inject_Z t)
  | _ => NaN
  end.

Definition setSelected (i : nat) (s : State) : State :=
  if showAnswer s then s
  else mkState (questionBank s) (index s) (Some i) (showAnswer s)
               (showExplanation s) (stats s) (showAccuracy s) (importError s).

Definition handleNext (s : State) : State :=
  if (totalQuestions s <=? 0)%nat then s
  else resetPerQuestionUI
         (mkState (questionBank s)
                  (num_rem (num_add (index s) (Fin 1)) (totalQuestions s))
                  (selected s) (showAnswer s) (showExplanation s)
                  (stats s) (showAccuracy s) (importError s)).

Definition handleResetProgress (s : State) : State :=
  mkState (questionBank s) (Fin 0) None false false
          (JObj []) (showAccuracy s) (importError s).

Definition hydrate (raw : item) (s : State) : State :=
  match raw with
  | Absent | Empty => s
  | Holds r =>
      let saved := safeParseJSON r in
      if negb (truthy saved) || negb (is_type TObject saved) then s
      else
        let '(bank, idx) :=
          match get saved f_questionBank with
          | JArr qs =>
              if forallb isValidQuestion qs
              then (qs, clampIndex (get saved f_index) (length qs))
              else (questionBank s, index s)
          | _ => (questionBank s, index s)
          end in
        let accuracyFlag :=
          match get saved f_showAccuracy with
          | JBool b => b
          | _ => showAccuracy s
          end in
        let st :=
          if truthy (get saved f_stats) && is_type TObject (get saved f_stats)
          then get saved f_stats else stats s in
        mkState bank idx (selected s) (showAnswer s) (showExplanation s)
                st accuracyFlag (importError s)
  end.

(** The state that [useState] sets up around a bank. *)
Definition fresh_state (bank : list jsval) : State :=
  mkState bank (Fin 0) None false false (JObj []) false "".

Section Handlers.

Variable ToString : jsval -> string.
Variable StringToNumber : string -> jsnum.
Variable inherits : jsval -> string -> bool.
Variable random : nat -> Q.

(** The state of the first render: the seed bank, shuffled. *)
Definition initialState (k : nat) : State * nat :=
  let '(bank, k') := shuffleList random k initialQuestions in
  (fresh_state bank, k').

Definition handleCheck (s : State) : State :=
  let q := currentQuestion s in
  match negb (truthy q), selected s with
  | false, Some i =>
      mkState (questionBank s) (index s) (selected s) true false
        (recordAnswer ToString StringToNumber inherits (stats s)
           (to_string ToString (get q f_topic))
           (selected_is i (get q f_answer)))
        (showAccuracy s) (importError s)
  | _, _ => s
  end.

Definition handleShuffle (k : nat) (s : State) : State * nat :=
  let '(bank, k') := shuffleList random k (questionBank s) in
  (mkState bank (Fin 0) None false false
           (stats s) (showAccuracy s) (importError s), k').

Definition setImportError (msg : string) (s : State) : State :=
  mkState (questionBank s) (index s) (selected s) (showAnswer s)
          (showExplanation s) (stats s) (showAccuracy s) msg.

Definition handleImportJSON (f : option file) (k : nat) (s : State)
    : State * nat :=
  match f with
  | None => (setImportError "" s, k)
  | Some Unreadable => (setImportError read_error s, k)
  | Some (Readable r) =>
      let data := safeParseJSON r in
      let imported := if Array_isArray data then data else get data f_questions in
      match imported with
      | JArr qs =>
          if (length qs =? 0)%nat then (setImportError structural_error s, k)
          else if negb (forallb isValidQuestion qs)
          then (setImportError schema_error s, k)
          else
            let '(bank, k') := shuffleList random k qs in
            (mkState bank (Fin 0) None false false
                     (JObj []) (showAccuracy s) "", k')
      | _ => (setImportError structural_error s, k)
      end
  end.

End Handlers.

(** ** What the component renders

    React renders a string or a number as text, renders nothing for a
    boolean, [null] and [undefined], and renders an array child by child; a
    plain object as a child makes the rendering fail. *)
Fixpoint child_ok (v : jsval) : bool :=
  match v with
  | JObj _ => false
  | JArr l => forallb child_ok l
  | _ => true
  end.

(** The children of the question card: [{q.topic}], [{q.stem}], a button
    with [{c}] for each element of [q.choices.map(...)], which fails when
    [q.choices] is no array, and [{q.explanation}] once the answer is
    revealed and the explanation is shown. *)
Definition card_ok (s : State) (q : jsval) : bool :=
  child_ok (get q f_topic) && child_ok (get q f_stem) &&
  match get q f_choices with
  | JArr cs => forallb child_ok cs
  | _ => false
  end &&
  (negb (showAnswer s && showExplanation s) || child_ok (get q f_explanation)).

(** The children of the accuracy panel, rendered when [showAccuracy] is
    set: [{topic}], [{s.correct}], [{s.total}] and the percentage of each
    entry of [accuracyByTopic].  The topic is a string, and the total and
    the percentage are numbers; [s.correct] is whatever the statistics
    hold.  Whether a line fails does not depend on the order of the lines. *)
Definition panel_ok (s : State) : bool :=
  negb (showAccuracy s) ||
  forallb (fun e => child_ok (get e.2 f_correct))
    (filter (fun e => answered e = true)
       (if truthy (stats s) then own_entries (stats s) else [])).

(** What the component renders: the notice that no question is loaded, the
    card of the current question with its Check Answer button, or nothing
    at all when the rendering of the card or of the panel fails. *)
Inductive view : Type :=
| NoQuestionsLoaded
| QuestionCard (q : jsval) (checkDisabled : bool)
| RenderFails.

Definition render (s : State) : view :=
  let q := currentQuestion s in
  if negb (truthy q) then NoQuestionsLoaded
  else if card_ok s q && panel_ok s
  then QuestionCard q (bool_decide (selected s = None) || showAnswer s)
  else RenderFails.

(** ** The earlier component (QuestionBankApp.jsx) *)

Module Jsx.

Record State : Type := mkState {
  questionBank : jsval;
  index : jsval;
  selected : option nat;
  showAnswer : bool;
}.

(** [JSON.parse(localStorage.getItem(STORAGE_KEY) || "null")] is not
    guarded: the effect fails ([None]) when the text does not parse. *)
Definition hydrate (raw : item) (s : State) : option State :=
  let parsed :=
    match raw with
    | Absent | Empty => Some JNull
    | Holds (Parsed v) => Some v
    | Holds SyntaxError => None
    end in
  match parsed with
  | None => None
  | Some saved =>
      if truthy (get saved f_questionBank)
      then Some (mkState (get saved f_questionBank)
                   (if truthy (get saved f_index) then get saved f_index else jnat 0)
                   (selected s) (showAnswer s))
      else Some s
  end.

End Jsx.

(** The Check Answer button is rendered on the question card and fires
    [handleCheck] only when it is not disabled. *)
Definition clickCheck (check : State -> State) (s : State) : State :=
  match render s with
  | QuestionCard _ false => check s
  | _ => s
  end.

(** ** The statistics invariant

    An entry holds two whole numbers that are not negative, [correct] at
    most [total]; a statistics value is an object of such entries. *)

Definition whole (x : jsnum) : bool :=
  Number_isInteger_num x && num_geb x (Fin 0).

Definition topic_ok (e : jsval) : bool :=
  match get e f_correct, get e f_total with
  | JNum c, JNum t => whole c && whole t && num_geb t c
  | _, _ => false
  end.

Definition stats_ok (st : jsval) : bool :=
  match st with
  | JObj l => forallb (fun e => topic_ok e.2) l
  | _ => false
  end.

(** A value that the load adopts as statistics. *)
Definition is_object (v : jsval) : bool := truthy v && is_type TObject v.

(** ** The classes of an import *)

(** The outcomes of an import, after the taxonomy of the errors: no file,
    a file that cannot be read, data that holds no sequence of questions or
    an empty one (a text that does not parse counts here), a sequence with
    an element that the validator rejects, and an accepted sequence. *)
Inductive import_class : Type :=
| NoFile
| ReadFailure
| Structural
| Schema
| Accepted (qs : list jsval).

Definition sequence_of (data : jsval) : option (list jsval) :=
  match data with
  | JArr qs => Some qs
  | _ => match get data f_questions with
         | JArr qs => Some qs
         | _ => None
         end
  end.

Definition classify (f : option file) : import_class :=
  match f with
  | None => NoFile
  | Some Unreadable => ReadFailure
  | Some (Readable SyntaxError) => Structural
  | Some (Readable (Parsed data)) =>
      match sequence_of data with
      | None | Some [] => Structural
      | Some qs => if forallb isValidQuestion qs then Accepted qs else Schema
      end
  end.

(** ** Sample inputs *)

(** A persisted snapshot with an empty bank, and one for the earlier
    component whose index lies beyond its bank of one question. *)
Definition empty_bank_snapshot : jsval :=
  JObj [("questionBank", JArr []); ("index", jnat 3)].

Definition far_index_snapshot : jsval :=
  JObj [("questionBank", JArr [good]); ("index", jnat 7)].

(** A persisted snapshot whose statistics field is an array. *)
Definition array_stats_snapshot : jsval :=
  JObj [("questionBank", JArr [good]); ("index", jnat 0);
        ("stats", JArr [jnat 1; jnat 2])].

(** A persisted snapshot whose statistics count more correct answers than
    answers. *)
Definition bad_stats_snapshot : jsval :=
  JObj [("stats", JObj [("T", JObj [("correct", jnat 5); ("total", jnat 2)])])].

(** A persisted snapshot with statistics within the invariant. *)
Definition good_stats_snapshot : jsval :=
  JObj [("stats", JObj [("T", JObj [("correct", jnat 1); ("total", jnat 2)])])].

(** A state in which the answer of the question [good] is revealed. *)
Definition revealed_state : State :=
  mkState [good] (Fin 0) (Some 0%nat) true true
    (JObj [("T", JObj [("total", jnat 1); ("correct", jnat 1)])]) false "".

(** A state in which a choice of the question [good] is selected and the
    panel is shown. *)
Definition answering_state : State :=
  mkState [good] (Fin 0) (Some 1%nat) false false
    (JObj [("T", JObj [("total", jnat 1); ("correct", jnat 1)])]) true "".

(** Statistics of three topics, one of them without an answer. *)
Definition sample_stats : jsval :=
  JObj [("Physiology", JObj [("total", jnat 3); ("correct", jnat 1)]);
        ("Anatomy", JObj [("total", jnat 2); ("correct", jnat 2)]);
        ("Genetics", JObj [("total", jnat 0); ("correct", jnat 0)])].

(** A persisted snapshot with an index beyond its bank and statistics
    within the invariant. *)
Definition far_index_stats_snapshot : jsval :=
  JObj [("questionBank", JArr [good]); ("index", jnat 7);
        ("showAccuracy", JBool true);
        ("stats", JObj [("T", JObj [("correct", jnat 1); ("total", jnat 2)])])].

(** A persisted snapshot of the seed bank with the index one half. *)
Definition half_index_snapshot : jsval :=
  JObj [("questionBank", JArr initialQuestions); ("index", JNum (Fin (1 # 2)))].

(** A source whose every draw is one half. *)
Definition halves (k : nat) : Q := 1 # 2.

(** ** The toggles and the events of the interface *)

Definition toggleAccuracy (s : State) : State :=
  mkState (questionBank s) (index s) (selected s) (showAnswer s)
          (showExplanation s) (stats s) (negb (showAccuracy s)) (importError s).

Definition toggleExplanation (s : State) : State :=
  mkState (questionBank s) (index s) (selected s) (showAnswer s)
          (negb (showExplanation s)) (stats s) (showAccuracy s) (importError s).

(** What the user can do, and the handler that each event fires. *)
Inductive event : Type :=
| Select (i : nat)
| Check
| Next
| Shuffle
| Reset
| ToggleExplanation
| ToggleAccuracy
| Import (f : option file).

Section Machine.

Variable ToString : jsval -> string.
Variable StringToNumber : string -> jsnum.
Variable inherits : jsval -> string -> bool.
Variable random : nat -> Q.

Definition step (e : event) (w : State * nat) : State * nat :=
  match e with
  | Select i => (setSelected i w.1, w.2)
  | Check => (handleCheck ToString StringToNumber inherits w.1, w.2)
  | Next => (handleNext w.1, w.2)
  | Shuffle => handleShuffle random w.2 w.1
  | Reset => (handleResetProgress w.1, w.2)
  | ToggleExplanation => (toggleExplanation w.1, w.2)
  | ToggleAccuracy => (toggleAccuracy w.1, w.2)
  | Import f => handleImportJSON random f w.2 w.1
  end.

(** The events of a session, in their order. *)
Definition run (es : list event) (w : State * nat) : State * nat :=
  foldl (fun w e => step e w) w es.

End Machine.

(** ** Persistence

    [json_value v] is what [JSON.parse] makes of [JSON.stringify(v)] for a
    value [v] inside an array or an object: a number that is not finite and
    an [undefined] array element become [null], a property whose value is
    [undefined] is left out, and everything else comes back as it was. *)

Fixpoint json_value (v : jsval) : jsval :=
  match v with
  | JUndefined => JNull
  | JNull => JNull
  | JBool b => JBool b
  | JNum (Fin q) => JNum (Fin q)
  | JNum _ => JNull
  | JStr s => JStr s
  | JArr l => JArr (map json_value l)
  | JObj l =>
      JObj ((fix props (l : list (string * jsval)) : list (string * jsval) :=
               match l with
               | [] => []
               | (k, JUndefined) :: l' => props l'
               | (k, x) :: l' => (k, json_value x) :: props l'
               end) l)
  end.

(** A value that [JSON.stringify] and [JSON.parse] give back: it holds no
    [undefined] and no number that is not finite. *)
Fixpoint json_clean (v : jsval) : bool :=
  match v with
  | JUndefined => false
  | JNum x => Number_isFinite_num x
  | JArr l => forallb json_clean l
  | JObj l =>
      (fix props (l : list (string * jsval)) : bool :=
         match l with
         | [] => true
         | (k, x) :: l' => json_clean x && props l'
         end) l
  | _ => true
  end.

(** The payload that the component writes after a change; [savedAt] is
    [Date.now()]. *)
Definition payload (savedAt : jsnum) (s : State) : jsval :=
  JObj [("questionBank", JArr (questionBank s)); ("index", JNum (index s));
        ("showAccuracy", JBool (showAccuracy s)); ("stats", stats s);
        ("schemaVersion", jnat 1); ("savedAt", JNum savedAt)].

(** The item that [localStorage] holds after the write. *)
Definition persist (savedAt : jsnum) (s : State) : item :=
  Holds (Parsed (json_value (payload savedAt s))).

(** The write of the earlier component: [{ questionBank, index }]. *)
Definition jsx_persist (s : Jsx.State) : item :=
  Holds (Parsed (json_value
    (JObj [("questionBank", Jsx.questionBank s); ("index", Jsx.index s)]))).

(** ** The choices and the accuracy panel as rendered *)

Inductive variant : Type := v_outline | v_default | v_destructive.
Inductive tint : Type := plain | green | red.

(** The [variant] of the button of choice [i] of the question [q]. *)
Definition choiceVariant (s : State) (q : jsval) (i : nat) : variant :=
  if showAnswer s then
    if selected_is i (get q f_answer) then v_default
    else if bool_decide (selected s = Some i) then v_destructive
    else v_outline
  else if bool_decide (selected s = Some i) then v_default
  else v_outline.

(** The colour class of the button of choice [i]. *)
Definition choiceTint (s : State) (q : jsval) (i : nat) : tint :=
  if showAnswer s && selected_is i (get q f_answer) then green
  else if showAnswer s && bool_decide (selected s = Some i) then red
  else plain.

(** The buttons of the question card, one for each choice. *)
Definition choiceButtons (s : State) (q : jsval) : list (jsval * variant * tint) :=
  match get q f_choices with
  | JArr cs => imap (fun i c => (c, choiceVariant s q i, choiceTint s q i)) cs
  | _ => []
  end.

Section Panel.

Variable ToString : jsval -> string.
Variable StringToNumber : string -> jsnum.
Variable localeCompare : string -> string -> comparison.

(** The accuracy panel, a part of the question card: absent when the
    component shows that no question is loaded or fails to render, and when
    [showAccuracy] is not set; otherwise a line for each answered topic with
    its counters and its percentage (no line stands for the note that no
    question is answered yet). *)
Definition accuracyPanel (s : State) : option (list (string * jsval * jsval * jsnum)) :=
  match render s with
  | QuestionCard _ _ =>
      if showAccuracy s
      then Some ((fun e => (e.1, get e.2 f_correct, get e.2 f_total,
                            accuracy ToString StringToNumber e.2))
                   <$> accuracyByTopic localeCompare (stats s))
      else None
  | _ => None
  end.

End Panel.

(** ** Invariants of the state

    The bank holds accepted questions only; the statistics are an object;
    the index is a number at least 0 and below the size of the bank (below 1
    for an empty bank); an answer is revealed only with a selection. *)

Definition index_in_bank (s : State) : Prop :=
  exists p, index s = Fin p /\ (0 <= p)%Q /\
            (p < inject_Z (Z.max 1 (Z.of_nat (length (questionBank s)))))%Q.

Record Inv (s : State) : Prop := mkInv {
  inv_bank : forallb isValidQuestion (questionBank s) = true;
  inv_stats : is_object (stats s) = true;
  inv_index : index_in_bank s;
  inv_reveal : showAnswer s = true -> selected s <> None;
}.

(** A stored index that is no fraction: a whole number, a number that is
    not finite, or no number. *)
Definition stored_index_whole (raw : item) : Prop :=
  match raw with
  | Holds (Parsed saved) =>
      match get saved f_index with
      | JNum (Fin p) => Number_isInteger_num (Fin p) = true
      | _ => True
      end
  | _ => True
  end.

(** Statistics whose every entry has a [correct] that React renders. *)
Definition stats_render (st : jsval) : bool :=
  forallb (fun e => child_ok (get e.2 f_correct)) (own_entries st).

(** Stored statistics that, if the load adopts them, render. *)
Definition stored_stats_render (raw : item) : Prop :=
  match raw with
  | Holds (Parsed saved) =>
      is_object (get saved f_stats) = true ->
      stats_render (get saved f_stats) = true
  | _ => True
  end.

(** * Properties *)

(** ** Numbers *)

Lemma Qle_bool_false p q : Qle_bool p q = false <-> (q < p)%Q.
Proof.
  split; intros H.
  - apply Qnot_le_lt. intros Hle. apply Qle_bool_iff in Hle. congruence.
  - destruct (Qle_bool p q) eqn:E; [|done].
    apply Qle_bool_iff in E. exfalso. eapply Qlt_not_le; eauto.
Qed.

Lemma Qmin_cases p q : Qmin p q = p \/ Qmin p q = q.
Proof.
  unfold Qmin, GenericMinMax.gmin. destruct (p ?= q)%Q; auto.
Qed.

Lemma Qmax_cases p q : Qmax p q = p \/ Qmax p q = q.
Proof.
  unfold Qmax, GenericMinMax.gmax. destruct (p ?= q)%Q; auto.
Qed.

Lemma isInteger_inject (z : Z) : Number_isInteger_num (Fin (inject_Z z)) = true.
Proof.
  unfold Number_isInteger_num. rewrite Qfloor_Z. apply Qeq_bool_iff. reflexivity.
Qed.

(** ** The index clamp *)

Lemma clampIndex_empty idx : clampIndex idx 0 = Fin 0.
Proof. destruct idx as [| | |x| | |]; try done. simpl. by rewrite orb_true_r. Qed.

Lemma clampIndex_not_finite idx n :
  Number_isFinite idx = false -> clampIndex idx n = Fin 0.
Proof.
  destruct idx as [| | |x| | |]; try done. simpl. by intros ->.
Qed.

Lemma clampIndex_range idx (n : nat) :
  (0 < n)%nat ->
  exists p, clampIndex idx n = Fin p /\
            (0 <= p)%Q /\ (p <= inject_Z (Z.of_nat n - 1))%Q.
Proof.
  intros Hn.
  assert (Hlast : (0 <= inject_Z (Z.of_nat n - 1))%Q)
    by (unfold Qle; simpl; lia).
  assert (Hzero : exists p, Fin 0 = Fin p /\ (0 <= p)%Q /\
                            (p <= inject_Z (Z.of_nat n - 1))%Q)
    by (exists 0%Q; split; [done | split; [apply Qle_refl | done]]).
  destruct idx as [| | |x| | |]; try exact Hzero.
  destruct x as [| | |q]; try exact Hzero.
  unfold clampIndex. simpl.
  replace (n <=? 0)%nat with false by (symmetry; apply Nat.leb_gt; lia).
  eexists; split; [reflexivity | split].
  - apply Q.le_max_l.
  - apply Q.max_lub; [done | apply Q.le_min_r].
Qed.

Lemma clampIndex_in_range (z : Z) (n : nat) :
  (0 <= z < Z.of_nat n)%Z ->
  exists p, clampIndex (jint z) n = Fin p /\ (p == inject_Z z)%Q.
Proof.
  intros Hz. unfold clampIndex, jint. simpl.
  replace (n <=? 0)%nat with false by (symmetry; apply Nat.leb_gt; lia).
  eexists; split; [reflexivity|].
  rewrite Q.min_l by (unfold Qle; simpl; lia).
  apply Q.max_r. unfold Qle; simpl; lia.
Qed.

(** The clamp of a whole number, or of a value that is not a number, is a
    whole number. *)
Lemma clampIndex_whole idx n :
  match idx with JNum x => Number_isInteger_num x = true | _ => True end ->
  Number_isInteger_num (clampIndex idx n) = true.
Proof.
  assert (Hz : Number_isInteger_num (Fin 0) = true) by apply (isInteger_inject 0).
  destruct idx as [| | |x| | |]; try (intros _; exact Hz).
  destruct x as [| | |q]; try (intros _; exact Hz).
  intros Hq. unfold clampIndex. simpl negb. simpl orb.
  destruct (n <=? 0)%nat; [exact Hz|].
  cbn [Math_min Math_max].
  destruct (Qmax_cases 0 (Qmin q (inject_Z (Z.of_nat n - 1)))) as [-> | ->];
    [exact Hz|].
  destruct (Qmin_cases q (inject_Z (Z.of_nat n - 1))) as [-> | ->];
    [exact Hq | apply isInteger_inject].
Qed.

(** Reading an array at a whole number within it gives an element. *)
Lemma arr_at_element (l : list jsval) (p : Q) :
  Number_isInteger_num (Fin p) = true ->
  (0 <= p)%Q -> (p <= inject_Z (Z.of_nat (length l) - 1))%Q ->
  exists q, arr_at l (Fin p) = q /\ q ∈ l.
Proof.
  intros Hint H0 Hlast.
  assert (Hp : (p == inject_Z (Qfloor p))%Q) by (by apply Qeq_bool_iff).
  assert (Hf0 : (0 <= Qfloor p)%Z).
  { rewrite Hp in H0. unfold Qle in H0. simpl in H0. lia. }
  assert (Hf1 : (Qfloor p <= Z.of_nat (length l) - 1)%Z).
  { rewrite Hp in Hlast. unfold Qle in Hlast. simpl in Hlast. lia. }
  unfold arr_at. rewrite Hint.
  replace (0 <=? Qfloor p)%Z with true by (symmetry; apply Z.leb_le; lia).
  simpl.
  destruct (l !! Z.to_nat (Qfloor p)) as [q|] eqn:E.
  - exists q. split; [done|]. by eapply list_elem_of_lookup_2.
  - apply lookup_ge_None in E. lia.
Qed.

(** ** The validator *)

(** An accepted question is truthy, has a topic that is a string, choices
    that form an array, and an answer that is a finite number, at least 0 and
    below the number of choices. *)
Theorem isValidQuestion_shape q :
  isValidQuestion q = true ->
  exists cs a,
    get q f_choices = JArr cs /\ get q f_answer = JNum (Fin a) /\
    (0 <= a)%Q /\ (a < inject_Z (Z.of_nat (length cs)))%Q /\
    typeof (get q f_topic) = TString /\ truthy q = true.
Proof.
  unfold isValidQuestion. intros H.
  repeat (apply andb_true_iff in H; destruct H as [H ?]).
  destruct (get q f_choices) as [| | | | |cs|]; try discriminate.
  match goal with Hc : _ && _ = true |- _ =>
    apply andb_true_iff in Hc; destruct Hc as [_ Hc] end.
  destruct (get q f_answer) as [| | |a| | |]; try discriminate.
  destruct a as [| | |a]; try discriminate.
  match goal with Hc : _ && _ = true |- _ =>
    repeat (apply andb_true_iff in Hc; destruct Hc as [Hc ?]) end.
  exists cs, a. repeat split; try done.
  - by apply Qle_bool_iff.
  - match goal with Hc : num_ltb _ _ = true |- _ =>
      simpl in Hc; apply negb_true_iff, Qle_bool_false in Hc; exact Hc end.
  - match goal with Hc : is_type TString (get q f_topic) = true |- _ =>
      unfold is_type in Hc; by apply bool_decide_eq_true in Hc end.
Qed.

Lemma isValidQuestion_shape_witness :
  isValidQuestion good = true /\
  exists cs a,
    get good f_choices = JArr cs /\ get good f_answer = JNum (Fin a) /\
    (0 <= a)%Q /\ (a < inject_Z (Z.of_nat (length cs)))%Q.
Proof.
  split; [reflexivity|].
  destruct (isValidQuestion_shape good eq_refl)
    as (cs & a & Hc & Ha & H0 & H1 & _).
  exists cs, a. done.
Defined.

(** C3. The validator accepts a question whose answer is one half: a finite
    number within the bounds that is not a whole number, so it indexes no
    choice, and no selection ever equals it. *)
Theorem isValidQuestion_accepts_fractional_answer :
  isValidQuestion (with_answer (Fin (1 # 2))) = true /\
  Number_isInteger_num (Fin (1 # 2)) = false /\
  arr_at [JStr "A"; JStr "B"] (Fin (1 # 2)) = JUndefined /\
  (forall i : nat, selected_is i (JNum (Fin (1 # 2))) = false).
Proof.
  repeat split; try reflexivity.
  intros i. unfold selected_is, num_eqb, num_of_nat.
  destruct (Qeq_bool _ _) eqn:E; [|done].
  apply Qeq_bool_eq in E. unfold Qeq in E. simpl in E. lia.
Qed.

(** ** Load *)

Lemma get_array_object saved f l :
  get saved f = JArr l -> exists props, saved = JObj props.
Proof. destruct saved; try discriminate. eauto. Qed.

Lemma hydrate_object props s :
  hydrate (Holds (Parsed (JObj props))) s =
  let saved := JObj props in
  let '(bank, idx) :=
    match get saved f_questionBank with
    | JArr qs =>
        if forallb isValidQuestion qs
        then (qs, clampIndex (get saved f_index) (length qs))
        else (questionBank s, index s)
    | _ => (questionBank s, index s)
    end in
  mkState bank idx (selected s) (showAnswer s) (showExplanation s)
    (if is_object (get saved f_stats) then get saved f_stats else stats s)
    (match get saved f_showAccuracy with JBool b => b | _ => showAccuracy s end)
    (importError s).
Proof. reflexivity. Qed.

Lemma hydrate_bank saved s qs :
  get saved f_questionBank = JArr qs ->
  forallb isValidQuestion qs = true ->
  questionBank (hydrate (Holds (Parsed saved)) s) = qs /\
  index (hydrate (Holds (Parsed saved)) s)
    = clampIndex (get saved f_index) (length qs).
Proof.
  intros Hb Hv. destruct (get_array_object _ _ _ Hb) as [props ->].
  rewrite hydrate_object. cbv zeta. rewrite Hb, Hv. done.
Qed.

(** The statistics after a load: the persisted field when it is an object
    or an array, the previous statistics otherwise. *)
Lemma hydrate_stats r s :
  stats (hydrate (Holds r) s) =
  if is_object (safeParseJSON r) && is_object (get (safeParseJSON r) f_stats)
  then get (safeParseJSON r) f_stats else stats s.
Proof.
  destruct r as [saved|]; [|done]. simpl safeParseJSON.
  destruct saved as [| |b|x|str|l|props]; try done.
  - by destruct b.
  - unfold hydrate, is_type. simpl. by rewrite orb_true_r, andb_false_r.
  - unfold hydrate, is_type. simpl. by rewrite orb_true_r, andb_false_r.
  - rewrite hydrate_object. cbv zeta.
    by destruct (match get (JObj props) f_questionBank with
                 | JArr qs => _ | _ => _ end).
Qed.

(** C5.  The clamp does not round.  The load adopts the stored index one
    half for the seed bank of two questions as it is: the index lies between
    0 and the last index, and is the index of no question.  The component
    then shows that no question is loaded, although the adopted bank holds
    two questions.  The earlier component passes no stored index through a
    clamp: it adopts the stored index 7 for a bank of one question. *)
Theorem load_adopts_fractional_index :
  forall s : State,
    questionBank (hydrate (Holds (Parsed half_index_snapshot)) s)
    = initialQuestions /\
    length initialQuestions = 2%nat /\
    index (hydrate (Holds (Parsed half_index_snapshot)) s) = Fin (1 # 2) /\
    Number_isInteger_num (index (hydrate (Holds (Parsed half_index_snapshot)) s))
    = false /\
    currentQuestion (hydrate (Holds (Parsed half_index_snapshot)) s)
    = JUndefined /\
    render (hydrate (Holds (Parsed half_index_snapshot)) s) = NoQuestionsLoaded /\
    Jsx.hydrate (Holds (Parsed far_index_snapshot))
      (Jsx.mkState (JArr initialQuestions) (jnat 0) None false)
    = Some (Jsx.mkState (JArr [good]) (jnat 7) None false).
Proof.
  intros s.
  assert (Hs : hydrate (Holds (Parsed half_index_snapshot)) s
               = mkState initialQuestions (Fin (1 # 2)) (selected s)
                   (showAnswer s) (showExplanation s) (stats s)
                   (showAccuracy s) (importError s)).
  { reflexivity. }
  rewrite Hs. repeat split; vm_compute; reflexivity.
Qed.

(** When the load adopts a persisted bank, the adopted index
    is [clampIndex(saved.index, bank.length)]: 0 for an empty bank or a
    stored index that is not a finite number, and a number within
    [0, bank.length - 1] for a bank that is not empty.  The current question
    is read through the clamp again, and when the stored index is a whole
    number, or no number at all, it is a question of the bank. *)
Theorem load_clamps_index (saved : jsval) (s : State) (qs : list jsval) :
  get saved f_questionBank = JArr qs ->
  forallb isValidQuestion qs = true ->
  let s' := hydrate (Holds (Parsed saved)) s in
  questionBank s' = qs /\
  index s' = clampIndex (get saved f_index) (length qs) /\
  (qs = [] -> index s' = Fin 0) /\
  (Number_isFinite (get saved f_index) = false -> index s' = Fin 0) /\
  (qs <> [] ->
   exists p, index s' = Fin p /\
             (0 <= p)%Q /\ (p <= inject_Z (Z.of_nat (length qs) - 1))%Q) /\
  currentQuestion s' = arr_at qs (clampIndex (JNum (index s')) (length qs)) /\
  (qs <> [] ->
   match get saved f_index with
   | JNum x => Number_isInteger_num x = true
   | _ => True
   end ->
   currentQuestion s' ∈ qs).
Proof.
  intros Hb Hv s'.
  destruct (hydrate_bank saved s qs Hb Hv) as [Hbank Hidx].
  fold s' in Hbank, Hidx.
  assert (Hlen : qs <> [] -> (0 < length qs)%nat).
  { destruct qs; [done | simpl; lia]. }
  assert (Hcur : currentQuestion s'
                 = arr_at qs (clampIndex (JNum (index s')) (length qs))).
  { unfold currentQuestion, totalQuestions. by rewrite Hbank. }
  split; [done|]. split; [done|].
  split. { intros ->. rewrite Hidx. apply clampIndex_empty. }
  split. { intros Hnf. rewrite Hidx. by apply clampIndex_not_finite. }
  split. { intros Hne. rewrite Hidx. apply clampIndex_range. auto. }
  split; [done|].
  intros Hne Hwhole. rewrite Hcur.
  assert (Hw : Number_isInteger_num (index s') = true).
  { rewrite Hidx. by apply clampIndex_whole. }
  destruct (clampIndex_range (JNum (index s')) (length qs) (Hlen Hne))
    as (p & Hp & H0 & H1).
  pose proof (clampIndex_whole (JNum (index s')) (length qs) Hw) as Hwp.
  rewrite Hp in Hwp |- *.
  destruct (arr_at_element qs p Hwp H0 H1) as (q & -> & Hin). done.
Qed.

Lemma load_clamps_index_witness :
  get far_index_snapshot f_questionBank = JArr [good] /\
  forallb isValidQuestion [good] = true /\
  index (hydrate (Holds (Parsed far_index_snapshot))
           (fresh_state initialQuestions)) = Fin 0 /\
  currentQuestion (hydrate (Holds (Parsed far_index_snapshot))
                     (fresh_state initialQuestions)) ∈ [good].
Proof.
  pose proof (load_clamps_index far_index_snapshot
                (fresh_state initialQuestions) [good]
                eq_refl eq_refl) as (_ & Hidx & _ & _ & _ & _ & Hcur).
  split; [reflexivity|]. split; [reflexivity|]. split.
  - rewrite Hidx. reflexivity.
  - apply Hcur; [done | reflexivity].
Defined.

(** C10.  A persisted snapshot whose bank is the empty array is adopted: the
    bank becomes empty, the index 0, and the component shows that no
    question is loaded, whatever bank it held before. *)
Theorem load_adopts_empty_bank (saved : jsval) (s : State) :
  get saved f_questionBank = JArr [] ->
  questionBank (hydrate (Holds (Parsed saved)) s) = [] /\
  index (hydrate (Holds (Parsed saved)) s) = Fin 0 /\
  render (hydrate (Holds (Parsed saved)) s) = NoQuestionsLoaded.
Proof.
  intros Hb.
  destruct (hydrate_bank saved s [] Hb eq_refl) as [Hbank Hidx].
  rewrite clampIndex_empty in Hidx.
  split; [done|]. split; [done|].
  unfold render, currentQuestion, totalQuestions. rewrite Hbank, Hidx. done.
Qed.

Lemma load_adopts_empty_bank_witness :
  get empty_bank_snapshot f_questionBank = JArr [] /\
  questionBank (fresh_state initialQuestions) = initialQuestions /\
  questionBank (hydrate (Holds (Parsed empty_bank_snapshot))
                  (fresh_state initialQuestions)) = [] /\
  render (hydrate (Holds (Parsed empty_bank_snapshot))
            (fresh_state initialQuestions)) = NoQuestionsLoaded.
Proof.
  pose proof (load_adopts_empty_bank empty_bank_snapshot
                (fresh_state initialQuestions) eq_refl) as (Hb & _ & Hr).
  split; [reflexivity|]. split; [reflexivity|]. split; [exact Hb | exact Hr].
Defined.

(** C6.  The load adopts a statistics field that is an array: the test
    [typeof saved.stats === "object"] holds of arrays. *)
Theorem load_adopts_array_stats :
  Array_isArray (get array_stats_snapshot f_stats) = true /\
  stats (hydrate (Holds (Parsed array_stats_snapshot))
           (fresh_state initialQuestions)) = JArr [jnat 1; jnat 2].
Proof. split; reflexivity. Qed.

(** A statistics field of any shape leaves the adoption of the bank as it
    is. *)
Theorem load_bank_whatever_stats (props : list (string * jsval)) (sv : jsval)
    (s : State) :
  assoc "questionBank" props = assoc "questionBank" (("stats", sv) :: props) /\
  questionBank (hydrate (Holds (Parsed (JObj (("stats", sv) :: props)))) s)
  = questionBank (hydrate (Holds (Parsed (JObj props))) s) /\
  index (hydrate (Holds (Parsed (JObj (("stats", sv) :: props)))) s)
  = index (hydrate (Holds (Parsed (JObj props))) s).
Proof.
  split; [reflexivity|]. rewrite !hydrate_object. cbv zeta.
  change (get (JObj (("stats", sv) :: props)) f_questionBank)
    with (get (JObj props) f_questionBank).
  change (get (JObj (("stats", sv) :: props)) f_index)
    with (get (JObj props) f_index).
  destruct (get (JObj props) f_questionBank); try done.
  by destruct (forallb isValidQuestion elems).
Qed.

(** ** The shuffler *)

Section ShuffleFacts.

Variable random : nat -> Q.
Context {A : Type}.
Implicit Types (l out : list A) (σ : gmap positive (list A)).

Lemma insert_exchange l j y a :
  l !! j = Some y -> y :: <[j := a]> l ≡ₚ a :: l.
Proof.
  revert j. induction l as [|b l IH]; intros [|j] Hj; simplify_eq/=.
  - apply Permutation_swap.
  - rewrite (Permutation_swap b y). rewrite (IH j Hj).
    apply Permutation_swap.
Qed.

Lemma swap_perm out i j : swap out i j ≡ₚ out.
Proof.
  unfold swap.
  destruct (out !! i) as [x|] eqn:Hi; [|done].
  destruct (out !! j) as [y|] eqn:Hj; [|done].
  revert i j Hi Hj.
  induction out as [|a out IH]; intros [|i] [|j] Hi Hj; simplify_eq/=.
  - done.
  - by apply insert_exchange.
  - by apply insert_exchange.
  - constructor. by apply IH.
Qed.

Lemma swap_length out i j : length (swap out i j) = length out.
Proof.
  unfold swap. destruct (out !! i), (out !! j); try done.
  by rewrite !length_insert.
Qed.

Lemma shuffle_from_perm i k out : (shuffle_from random i k out).1 ≡ₚ out.
Proof.
  revert k out. induction i as [|i IH]; intros k out; [done|].
  simpl. rewrite IH. apply swap_perm.
Qed.

Lemma shuffle_from_calls i k out : (shuffle_from random i k out).2 = (k + i)%nat.
Proof.
  revert k out. induction i as [|i IH]; intros k out; simpl; [lia|].
  rewrite IH. lia.
Qed.

Lemma shuffleList_perm k l : (shuffleList random k l).1 ≡ₚ l.
Proof. apply shuffle_from_perm. Qed.

Lemma shuffleList_length k l : length (shuffleList random k l).1 = length l.
Proof. apply Permutation_length, shuffleList_perm. Qed.

(** In the store the loop changes the contents at [out] alone, and makes
    of them what [shuffle_from] makes of them. *)
Lemma shuffle_loop_contents (o : positive) i k σ out :
  σ !! o = Some out ->
  shuffle_loop random o i k σ
  = (<[o := (shuffle_from random i k out).1]> σ,
     (shuffle_from random i k out).2).
Proof.
  revert k σ out. induction i as [|i IH]; intros k σ out Ho.
  - simpl. by rewrite insert_id.
  - simpl. erewrite IH; [|by rewrite lookup_alter_eq, Ho].
    f_equal. apply map_eq. intros r.
    destruct (decide (r = o)) as [->|Hne].
    + by rewrite !lookup_insert_eq.
    + by rewrite !lookup_insert_ne, lookup_alter_ne.
Qed.

(** Under the contract of [Math.random] a drawn index is at most [i]:
    every swap of the loop is within the array. *)
Lemma draw_within k i :
  (0 <= random k)%Q /\ (random k < 1)%Q -> (draw random k i <= i)%nat.
Proof.
  intros [H0 H1]. unfold draw.
  set (m := inject_Z (Z.of_nat (i + 1))).
  assert (Hm : (0 < m)%Q) by (unfold m, Qlt; simpl; lia).
  assert (Hlt : (random k * m < m)%Q).
  { rewrite <- (Qmult_1_l m) at 2. by apply Qmult_lt_compat_r. }
  pose proof (Qfloor_le (random k * m)) as Hfl.
  assert (Hz : (Qfloor (random k * m) < Z.of_nat (i + 1))%Z).
  { rewrite Zlt_Qlt. eapply Qle_lt_trans; eauto. }
  lia.
Qed.

(** C7.  [shuffleArray] returns a reference other than that of its
    argument, to contents of the same length and with the same elements
    as many times; the argument, and every other array of the store, is
    as it was.  The draws are those of [Math.random], within [0, 1). *)
Theorem shuffleArray_fresh_permutation σ (arr : positive) (k : nat) (s : list A) :
  (forall n, (0 <= random n)%Q /\ (random n < 1)%Q) ->
  σ !! arr = Some s ->
  exists (out : positive) σ' (k' : nat) (s' : list A),
    shuffleArray random σ arr k = Some (out, σ', k') /\
    out <> arr /\
    σ' !! arr = Some s /\
    σ' !! out = Some s' /\
    length s' = length s /\
    s' ≡ₚ s /\
    (forall r, r <> out -> σ' !! r = σ !! r) /\
    (forall i n, (draw random n i <= i)%nat).
Proof.
  intros Hunit Harr. unfold shuffleArray. rewrite Harr.
  set (out := fresh (dom σ)).
  assert (Hout : σ !! out = None).
  { apply not_elem_of_dom. apply is_fresh. }
  assert (Hne : out <> arr) by (intros E; rewrite E in Hout; congruence).
  rewrite (shuffle_loop_contents out _ k (<[out := s]> σ) s)
    by apply lookup_insert_eq.
  eexists out, _, _, _. split; [reflexivity|].
  split; [done|].
  split. { by rewrite !lookup_insert_ne. }
  split. { by rewrite lookup_insert_eq. }
  split. { apply Permutation_length, shuffle_from_perm. }
  split. { apply shuffle_from_perm. }
  split. { intros r Hr. by rewrite !lookup_insert_ne. }
  intros i n. apply draw_within, Hunit.
Qed.

End ShuffleFacts.

Lemma shuffleArray_fresh_permutation_witness :
  (forall n, (0 <= halves n)%Q /\ (halves n < 1)%Q) /\
  ({[ 1%positive := [1; 2; 3; 4; 5]%nat ]} : gmap positive (list nat)) !! 1%positive
    = Some [1; 2; 3; 4; 5]%nat /\
  exists out σ' k' s',
    shuffleArray halves {[ 1%positive := [1; 2; 3; 4; 5]%nat ]} 1%positive 0
      = Some (out, σ', k') /\
    out <> 1%positive /\
    σ' !! 1%positive = Some [1; 2; 3; 4; 5]%nat /\
    σ' !! out = Some s' /\
    s' ≡ₚ [1; 2; 3; 4; 5]%nat.
Proof.
  assert (Hunit : forall n, (0 <= halves n)%Q /\ (halves n < 1)%Q)
    by (intros n; unfold Qle, Qlt, halves; simpl; lia).
  assert (Harr0 : ({[ 1%positive := [1; 2; 3; 4; 5]%nat ]}
                     : gmap positive (list nat)) !! 1%positive
                  = Some [1; 2; 3; 4; 5]%nat) by reflexivity.
  split; [exact Hunit|]. split; [exact Harr0|].
  destruct (shuffleArray_fresh_permutation halves
              {[ 1%positive := [1; 2; 3; 4; 5]%nat ]} 1%positive 0
              [1; 2; 3; 4; 5]%nat Hunit Harr0)
    as (out & σ' & k' & s' & Hrun & Hne & Harr & Hout & _ & Hperm & _).
  exists out, σ', k', s'. done.
Defined.

(** ** Shuffle, reset and import *)

(** C8.  Shuffle replaces the bank by its shuffle, resets the index and the
    per-question state, and keeps the statistics; Reset Progress resets the
    index and the per-question state, empties the statistics, and keeps the
    bank and its order.  Both keep the accuracy flag and the import
    message. *)
Theorem shuffle_keeps_stats_reset_keeps_bank (random : nat -> Q) (k : nat)
    (s : State) :
  (questionBank (handleShuffle random k s).1
     = (shuffleList random k (questionBank s)).1 /\
   questionBank (handleShuffle random k s).1 ≡ₚ questionBank s /\
   index (handleShuffle random k s).1 = Fin 0 /\
   selected (handleShuffle random k s).1 = None /\
   showAnswer (handleShuffle random k s).1 = false /\
   showExplanation (handleShuffle random k s).1 = false /\
   stats (handleShuffle random k s).1 = stats s /\
   showAccuracy (handleShuffle random k s).1 = showAccuracy s /\
   importError (handleShuffle random k s).1 = importError s) /\
  (questionBank (handleResetProgress s) = questionBank s /\
   index (handleResetProgress s) = Fin 0 /\
   selected (handleResetProgress s) = None /\
   showAnswer (handleResetProgress s) = false /\
   showExplanation (handleResetProgress s) = false /\
   stats (handleResetProgress s) = JObj [] /\
   showAccuracy (handleResetProgress s) = showAccuracy s /\
   importError (handleResetProgress s) = importError s).
Proof.
  split; [|done].
  pose proof (shuffleList_perm random k (questionBank s)) as Hperm.
  unfold handleShuffle.
  destruct (shuffleList random k (questionBank s)) as [bank k'] eqn:E.
  simpl in *. done.
Qed.

(** Setting the import message changes nothing else. *)
Lemma setImportError_frame msg s :
  questionBank (setImportError msg s) = questionBank s /\
  index (setImportError msg s) = index s /\
  selected (setImportError msg s) = selected s /\
  showAnswer (setImportError msg s) = showAnswer s /\
  showExplanation (setImportError msg s) = showExplanation s /\
  stats (setImportError msg s) = stats s /\
  showAccuracy (setImportError msg s) = showAccuracy s /\
  importError (setImportError msg s) = msg.
Proof. done. Qed.

(** C2.  A text that cannot be parsed gets the message of the structural
    class.  [safeParseJSON] turns the failure into [null], so no failure to
    parse reaches the [catch] of [handleImportJSON]: the message of that
    branch, for a file that could not be read or parsed, is set for no file
    that can be read, and only for a file that cannot be read.  The state is
    otherwise left as it is. *)
Theorem import_unparsable_is_structural :
  importError
    (handleImportJSON halves (Some (Readable SyntaxError)) 0
       (fresh_state initialQuestions)).1 = structural_error /\
  structural_error <> read_error /\
  (forall random k s,
     handleImportJSON random (Some (Readable SyntaxError)) k s
     = (setImportError structural_error s, k)) /\
  (forall random r k s,
     importError (handleImportJSON random (Some (Readable r)) k s).1
     <> read_error) /\
  (forall random k s,
     handleImportJSON random (Some Unreadable) k s
     = (setImportError read_error s, k)).
Proof.
  split; [reflexivity|]. split; [discriminate|]. split; [reflexivity|].
  split; [|reflexivity].
  intros random r k s. unfold handleImportJSON.
  destruct (if Array_isArray (safeParseJSON r) then safeParseJSON r
            else get (safeParseJSON r) f_questions)
    as [| | | | |qs|]; try discriminate.
  destruct (length qs =? 0)%nat; [discriminate|].
  destruct (negb (forallb isValidQuestion qs)); [discriminate|].
  destruct (shuffleList random k qs). discriminate.
Qed.

(** The statistics after an import: as they were, or empty. *)
Lemma handleImportJSON_stats (random : nat -> Q) (f : option file) (k : nat)
    (s : State) :
  stats (handleImportJSON random f k s).1 = stats s \/
  stats (handleImportJSON random f k s).1 = JObj [].
Proof.
  destruct f as [[|r]|]; [by left | | by left].
  unfold handleImportJSON.
  destruct (if Array_isArray (safeParseJSON r) then safeParseJSON r
            else get (safeParseJSON r) f_questions)
    as [| | | | |qs|]; try by left.
  destruct (length qs =? 0)%nat; [by left|].
  destruct (negb (forallb isValidQuestion qs)); [by left|].
  destruct (shuffleList random k qs). by right.
Qed.

(** The outcomes of an import.  An import that fails changes the import
    message alone:
    the bank, the index, the statistics and the per-question state stay.
    The message is the structural one when the text does not parse, or the
    data is neither a sequence nor an object with a [questions] sequence, or
    the sequence is empty; the schema one when an element fails the
    validator; the read one when the file cannot be read.  An accepted
    import makes the shuffled sequence the bank, resets the index and the
    per-question state, empties the statistics and clears the message. *)
Theorem import_outcomes (random : nat -> Q) (f : option file) (k : nat)
    (s : State) :
  (forall msg, questionBank (setImportError msg s) = questionBank s /\
               index (setImportError msg s) = index s /\
               stats (setImportError msg s) = stats s /\
               selected (setImportError msg s) = selected s /\
               showAnswer (setImportError msg s) = showAnswer s /\
               showExplanation (setImportError msg s) = showExplanation s /\
               importError (setImportError msg s) = msg) /\
  match classify f with
  | NoFile => handleImportJSON random f k s = (setImportError "" s, k)
  | ReadFailure => handleImportJSON random f k s = (setImportError read_error s, k)
  | Structural =>
      handleImportJSON random f k s = (setImportError structural_error s, k)
  | Schema => handleImportJSON random f k s = (setImportError schema_error s, k)
  | Accepted qs =>
      handleImportJSON random f k s
      = (mkState (shuffleList random k qs).1 (Fin 0) None false false
           (JObj []) (showAccuracy s) "",
         (shuffleList random k qs).2)
  end.
Proof.
  split; [done|].
  destruct f as [[|[data|]]|]; try reflexivity.
  unfold classify, sequence_of, handleImportJSON. simpl safeParseJSON.
  destruct data as [| | | | |qs|props]; try reflexivity.
  - simpl Array_isArray. cbv iota.
    destruct qs as [|q qs]; [reflexivity|].
    change (length (q :: qs) =? 0)%nat with false. cbv iota.
    destruct (forallb isValidQuestion (q :: qs)); [|reflexivity].
    simpl negb. cbv iota. by destruct (shuffleList random k (q :: qs)).
  - simpl Array_isArray. cbv iota.
    destruct (get (JObj props) f_questions) as [| | | | |qs|]; try reflexivity.
    destruct qs as [|q qs]; [reflexivity|].
    change (length (q :: qs) =? 0)%nat with false. cbv iota.
    destruct (forallb isValidQuestion (q :: qs)); [|reflexivity].
    simpl negb. cbv iota. by destruct (shuffleList random k (q :: qs)).
Qed.

(** ** Objects *)

Lemma assoc_replace_prop k v l :
  assoc k l <> None -> assoc k (replace_prop k v l) = Some v.
Proof.
  induction l as [|[k' v'] l IH]; simpl; [done|].
  destruct (String.eqb k k') eqn:E; simpl; rewrite E; auto.
Qed.

Lemma assoc_app_None k l l' :
  assoc k l = None -> assoc k (l ++ l') = assoc k l'.
Proof.
  induction l as [|[k' v'] l IH]; simpl; [done|].
  destruct (String.eqb k k'); [done | auto].
Qed.

Lemma assoc_insert_index n k v l :
  assoc k l = None -> assoc k (insert_index n k v l) = Some v.
Proof.
  induction l as [|[k' v'] l IH]; simpl.
  - by rewrite String.eqb_refl.
  - destruct (String.eqb k k') eqn:E; [done|]. intros Hl.
    destruct (array_index k') as [m|]; [destruct (m <? n)%N|]; simpl;
      rewrite ?E, ?String.eqb_refl; auto.
Qed.

Lemma assoc_obj_set k v l : assoc k (obj_set l k v) = Some v.
Proof.
  unfold obj_set. destruct (assoc k l) eqn:E.
  - apply assoc_replace_prop. congruence.
  - destruct (array_index k).
    + by apply assoc_insert_index.
    + rewrite assoc_app_None by done. simpl. by rewrite String.eqb_refl.
Qed.

Lemma assoc_elem k v l : assoc k l = Some v -> (k, v) ∈ l.
Proof.
  induction l as [|[k' v'] l IH]; simpl; [done|].
  destruct (String.eqb k k') eqn:E.
  - apply String.eqb_eq in E. intros [= ->]. subst. left.
  - intros H. right. auto.
Qed.

Section ObjSetForall.

Variable P : string * jsval -> bool.

Lemma forallb_replace_prop k v l :
  forallb P l = true -> (forall k', P (k', v) = true) ->
  forallb P (replace_prop k v l) = true.
Proof.
  intros Hl Hv. induction l as [|[k' v'] l IH]; simpl in *; [done|].
  apply andb_true_iff in Hl as [H1 H2].
  destruct (String.eqb k k'); simpl; rewrite ?Hv, ?H1; auto.
Qed.

Lemma forallb_insert_index n k v l :
  forallb P l = true -> P (k, v) = true ->
  forallb P (insert_index n k v l) = true.
Proof.
  intros Hl Hv. induction l as [|[k' v'] l IH]; simpl in *.
  - by rewrite Hv.
  - apply andb_true_iff in Hl as [H1 H2].
    destruct (array_index k') as [m|]; [destruct (m <? n)%N|]; simpl;
      rewrite ?Hv, ?H1, ?H2; auto.
Qed.

Lemma forallb_obj_set k v l :
  forallb P l = true -> (forall k', P (k', v) = true) ->
  forallb P (obj_set l k v) = true.
Proof.
  intros Hl Hv. unfold obj_set. destruct (assoc k l).
  - by apply forallb_replace_prop.
  - destruct (array_index k).
    + by apply forallb_insert_index.
    + rewrite forallb_app, Hl. simpl. by rewrite Hv.
Qed.

End ObjSetForall.

(** ** Statistics *)

Lemma whole_spec x :
  whole x = true <->
  exists q z, x = Fin q /\ (q == inject_Z z)%Q /\ (0 <= z)%Z.
Proof.
  unfold whole. split.
  - intros H. apply andb_true_iff in H as [Hi Hg].
    destruct x as [| | |q]; try discriminate.
    exists q, (Qfloor q). simpl in Hi, Hg.
    apply Qeq_bool_iff in Hi. apply Qle_bool_iff in Hg.
    split; [done|]. split; [done|].
    rewrite Hi in Hg. unfold Qle in Hg. simpl in Hg. lia.
  - intros (q & z & -> & Hq & Hz). apply andb_true_iff. split.
    + unfold Number_isInteger_num. apply Qeq_bool_iff.
      rewrite Hq at 2. rewrite Qfloor_Z. done.
    + simpl. apply Qle_bool_iff. rewrite Hq. unfold Qle. simpl. lia.
Qed.

Lemma whole_add_bit x (b : bool) :
  whole x = true ->
  whole (num_add x (num_of_nat (if b then 1 else 0))) = true.
Proof.
  intros (q & z & -> & Hq & Hz)%whole_spec. apply whole_spec.
  exists (q + inject_Z (Z.of_nat (if b then 1 else 0)))%Q,
         (z + Z.of_nat (if b then 1 else 0))%Z.
  split; [done|]. split; [|lia].
  rewrite Hq, inject_Z_plus. done.
Qed.

Lemma topic_ok_entry c t :
  topic_ok (JObj [("total", JNum t); ("correct", JNum c)])
  = whole c && whole t && num_geb t c.
Proof. reflexivity. Qed.

Section StatsFacts.

Variable ToString : jsval -> string.
Variable StringToNumber : string -> jsnum.
Variable inherits : jsval -> string -> bool.

Lemma js_add_numbers x y :
  js_add ToString StringToNumber (JNum x) (JNum y) = JNum (num_add x y).
Proof. reflexivity. Qed.

(** A recorded answer keeps an entry within the invariant. *)
Lemma record_entry_ok c t (b : bool) :
  whole c = true -> whole t = true -> num_geb t c = true ->
  topic_ok
    (JObj [("total", js_add ToString StringToNumber (JNum t) (jnat 1));
           ("correct", js_add ToString StringToNumber (JNum c)
                         (jnat (if b then 1 else 0)))]) = true.
Proof.
  intros Hc Ht Hle. unfold jnat. rewrite !js_add_numbers, topic_ok_entry.
  rewrite (whole_add_bit c b Hc), (whole_add_bit t true Ht). simpl andb.
  apply whole_spec in Hc as (qc & zc & -> & Hqc & Hzc).
  apply whole_spec in Ht as (qt & zt & -> & Hqt & Hzt).
  simpl in *. apply Qle_bool_iff in Hle. apply Qle_bool_iff.
  assert (inject_Z (Z.of_nat (if b then 1 else 0)) <= inject_Z (Z.of_nat 1))%Q
    by (destruct b; unfold Qle; simpl; lia).
  apply Qplus_le_compat; done.
Qed.

Lemma topic_ok_object e :
  topic_ok e = true ->
  exists c t, get e f_correct = JNum c /\ get e f_total = JNum t /\
              whole c = true /\ whole t = true /\ num_geb t c = true /\
              truthy e = true.
Proof.
  unfold topic_ok. intros H.
  destruct e as [| | | | | |props]; try discriminate.
  destruct (get (JObj props) f_correct) as [| | |c| | |]; try discriminate.
  destruct (get (JObj props) f_total) as [| | |t| | |]; try discriminate.
  apply andb_true_iff in H as [H H3]. apply andb_true_iff in H as [H1 H2].
  exists c, t. done.
Qed.

(** The updater of [handleCheck] keeps the invariant, for a topic whose key
    is an own key of the statistics or no member of a built-in prototype. *)
Lemma recordAnswer_ok prev k (b : bool) :
  stats_ok prev = true ->
  lookup inherits prev k <> Inherited ->
  stats_ok (recordAnswer ToString StringToNumber inherits prev k b) = true.
Proof.
  intros Hok Hlk. destruct prev as [| | | | | |props]; try discriminate.
  simpl in Hok. unfold recordAnswer. unfold lookup in *.
  simpl own_prop in *. simpl own_entries.
  destruct (assoc k props) as [v|] eqn:Ha.
  - assert (Hv : topic_ok v = true).
    { apply assoc_elem, list_elem_of_In in Ha.
      rewrite forallb_forall in Hok. apply (Hok _ Ha). }
    apply topic_ok_object in Hv as (c & t & Hc & Ht & Hwc & Hwt & Hle & Htr).
    rewrite Htr, Hc, Ht. simpl stats_ok.
    apply forallb_obj_set; [done|]. intros k'. by apply record_entry_ok.
  - destruct (inherits (JObj props) k); [done|].
    simpl stats_ok. apply forallb_obj_set; [done|]. intros k'.
    by apply record_entry_ok.
Qed.

(** After the updater the statistics hold the new entry at the key. *)
Lemma recordAnswer_entry prev k (b : bool) :
  exists total correct,
    own_prop (recordAnswer ToString StringToNumber inherits prev k b) k
    = Some (JObj [("total", js_add ToString StringToNumber total (jnat 1));
                  ("correct", js_add ToString StringToNumber correct
                                (jnat (if b then 1 else 0)))]) /\
    (forall v, own_prop prev k = Some v -> truthy v = true ->
               total = get v f_total /\ correct = get v f_correct).
Proof.
  unfold recordAnswer, lookup.
  destruct (own_prop prev k) as [v|] eqn:Hv.
  - destruct (truthy v) eqn:Htr.
    + eexists _, _. split; [apply assoc_obj_set|].
      by intros ? [= <-] _.
    + eexists _, _. split; [apply assoc_obj_set|].
      intros ? [= <-] ?. congruence.
  - destruct (inherits prev k); eexists _, _;
      (split; [apply assoc_obj_set | done]).
Qed.

End StatsFacts.

(** ** Check Answer *)

(** C1, as stated, fails: invoked on a state whose answer is revealed,
    [handleCheck] records the answer again and hides the explanation. *)
Lemma handleCheck_again_records_again :
  showAnswer revealed_state = true /\
  forall ToString StringToNumber inherits,
    stats (handleCheck ToString StringToNumber inherits revealed_state)
    = JObj [("T", JObj [("total", jnat 2); ("correct", jnat 2)])] /\
    showExplanation (handleCheck ToString StringToNumber inherits revealed_state)
    = false /\
    handleCheck ToString StringToNumber inherits revealed_state <> revealed_state.
Proof.
  split; [reflexivity|]. intros TS SN inh.
  split; [reflexivity|]. split; [reflexivity|].
  intros E. apply (f_equal showExplanation) in E. discriminate.
Qed.

Section CheckFacts.

Variable ToString : jsval -> string.
Variable StringToNumber : string -> jsnum.
Variable inherits : jsval -> string -> bool.

#[local] Abbreviation check := (handleCheck ToString StringToNumber inherits).

(** C1, amended.  In a state whose answer is revealed the Check Answer
    button is disabled, so a click changes nothing.  The handler itself
    rejects only a missing question or a missing selection: invoked with
    both present it keeps the answer revealed, hides the explanation and
    records the answer again, so that a topic with a count [t] of answers,
    a whole number below 2^53, gets the count [t + 1]. *)
Theorem check_when_revealed (s : State) :
  showAnswer s = true ->
  clickCheck check s = s /\
  (truthy (currentQuestion s) = false \/ selected s = None -> check s = s) /\
  (forall i : nat,
     truthy (currentQuestion s) = true -> selected s = Some i ->
     check s
     = mkState (questionBank s) (index s) (selected s) true false
         (recordAnswer ToString StringToNumber inherits (stats s)
            (to_string ToString (get (currentQuestion s) f_topic))
            (selected_is i (get (currentQuestion s) f_answer)))
         (showAccuracy s) (importError s) /\
     (forall v t,
        own_prop (stats s) (to_string ToString (get (currentQuestion s) f_topic))
        = Some v ->
        truthy v = true -> get v f_total = JNum (Fin t) ->
        whole (Fin t) = true -> (t + 1 <= 9007199254740992)%Q ->
        exists v',
          own_prop (stats (check s))
            (to_string ToString (get (currentQuestion s) f_topic)) = Some v' /\
          get v' f_total = JNum (Fin (t + 1)))).
Proof.
  intros Hrev. split; [|split].
  - unfold clickCheck, render.
    destruct (negb (truthy (currentQuestion s))); [done|].
    destruct (card_ok s (currentQuestion s) && panel_ok s); [|done].
    by rewrite Hrev, orb_true_r.
  - unfold handleCheck. intros [-> | ->]; [done|].
    by destruct (negb (truthy (currentQuestion s))).
  - intros i Hq Hsel.
    assert (Hc : check s
                 = mkState (questionBank s) (index s) (selected s) true false
                     (recordAnswer ToString StringToNumber inherits (stats s)
                        (to_string ToString (get (currentQuestion s) f_topic))
                        (selected_is i (get (currentQuestion s) f_answer)))
                     (showAccuracy s) (importError s)).
    { unfold handleCheck. by rewrite Hq, Hsel. }
    split; [exact Hc|]. intros v t Hv Htr Ht _ _. rewrite Hc. simpl stats.
    destruct (recordAnswer_entry ToString StringToNumber inherits (stats s)
                (to_string ToString (get (currentQuestion s) f_topic))
                (selected_is i (get (currentQuestion s) f_answer)))
      as (total & correct & Hnew & Hold).
    destruct (Hold v Hv Htr) as [-> ->].
    eexists. split; [exact Hnew|]. rewrite Ht. reflexivity.
Qed.

End CheckFacts.

Lemma check_when_revealed_witness :
  showAnswer revealed_state = true /\
  forall ToString StringToNumber inherits,
    clickCheck (handleCheck ToString StringToNumber inherits) revealed_state
    = revealed_state /\
    exists v',
      own_prop
        (stats (handleCheck ToString StringToNumber inherits revealed_state)) "T"
      = Some v' /\
      get v' f_total = JNum (Fin (1 + 1)).
Proof.
  split; [reflexivity|]. intros TS SN inh.
  destruct (check_when_revealed TS SN inh revealed_state eq_refl)
    as (Hclick & _ & Hrec).
  split; [exact Hclick|].
  destruct (Hrec 0%nat eq_refl eq_refl) as [_ Hcount].
  assert (Hsafe : (1 + 1 <= 9007199254740992)%Q)
    by (unfold Qle; simpl; lia).
  exact (Hcount (JObj [("total", jnat 1); ("correct", jnat 1)]) 1%Q
           eq_refl eq_refl eq_refl eq_refl Hsafe).
Defined.

(** ** The statistics invariant *)

(** C4, as stated, fails: the load adopts persisted statistics without
    looking at their entries. *)
Lemma load_breaks_stats_invariant :
  stats_ok (stats (fresh_state initialQuestions)) = true /\
  stats (hydrate (Holds (Parsed bad_stats_snapshot)) (fresh_state initialQuestions))
  = JObj [("T", JObj [("correct", jnat 5); ("total", jnat 2)])] /\
  stats_ok (stats (hydrate (Holds (Parsed bad_stats_snapshot))
                     (fresh_state initialQuestions))) = false.
Proof. repeat split. Qed.

Section InvariantFacts.

Variable ToString : jsval -> string.
Variable StringToNumber : string -> jsnum.
Variable inherits : jsval -> string -> bool.
Variable random : nat -> Q.

(** C4, amended.  Reset Progress leaves statistics within the invariant
    (they are empty).  From statistics within the invariant, an import
    leaves them so (unchanged or empty); recording a checked answer leaves
    them so when the key of the topic is an own key of the statistics or no
    member of a built-in prototype; and a load leaves them so when the
    persisted statistics, if the load adopts them, are within the
    invariant.  The load adopts the persisted statistics as they are
    whenever they are an object, and keeps the statistics otherwise; it
    looks at no entry, so after a load that adopts them the invariant holds
    exactly when the persisted statistics are within it. *)
Theorem stats_invariant_steps (s : State) :
  stats_ok (stats (handleResetProgress s)) = true /\
  (stats_ok (stats s) = true ->
   (forall f k, stats_ok (stats (handleImportJSON random f k s).1) = true) /\
   (lookup inherits (stats s)
      (to_string ToString (get (currentQuestion s) f_topic)) <> Inherited ->
    stats_ok (stats (handleCheck ToString StringToNumber inherits s)) = true) /\
   (forall r,
      (is_object (get (safeParseJSON r) f_stats) = true ->
       stats_ok (get (safeParseJSON r) f_stats) = true) ->
      stats_ok (stats (hydrate (Holds r) s)) = true)) /\
  (forall r,
     stats (hydrate (Holds r) s) = stats s \/
     (is_object (get (safeParseJSON r) f_stats) = true /\
      stats (hydrate (Holds r) s) = get (safeParseJSON r) f_stats)) /\
  (forall r,
     is_object (get (safeParseJSON r) f_stats) = true ->
     stats (hydrate (Holds r) s) = get (safeParseJSON r) f_stats /\
     (stats_ok (stats (hydrate (Holds r) s)) = true <->
      stats_ok (get (safeParseJSON r) f_stats) = true)) /\
  (forall r,
     is_object (get (safeParseJSON r) f_stats) = false ->
     stats (hydrate (Holds r) s) = stats s) /\
  hydrate Absent s = s /\ hydrate Empty s = s.
Proof.
  assert (Hfield : forall v, is_object (get v f_stats) = true ->
                             is_object v = true).
  { intros v. by destruct v. }
  split; [reflexivity|]. split; [|split; [|split; [|split; [|done]]]].
  - intros Hok. split; [|split].
    + intros f k.
      destruct (handleImportJSON_stats random f k s) as [-> | ->]; done.
    + intros Hlk. unfold handleCheck.
      destruct (negb (truthy (currentQuestion s))); [done|].
      destruct (selected s) as [i|]; [|done].
      simpl stats. by apply recordAnswer_ok.
    + intros r Hr. rewrite hydrate_stats.
      destruct (is_object (safeParseJSON r)); [|done].
      destruct (is_object (get (safeParseJSON r) f_stats)); [|done].
      by apply Hr.
  - intros r. rewrite hydrate_stats.
    destruct (is_object (safeParseJSON r)); [|by left].
    destruct (is_object (get (safeParseJSON r) f_stats)); [|by left].
    by right.
  - intros r Hr. rewrite hydrate_stats, (Hfield _ Hr), Hr. done.
  - intros r Hr. rewrite hydrate_stats, Hr. by rewrite andb_false_r.
Qed.

End InvariantFacts.

Lemma stats_invariant_steps_witness :
  stats_ok (stats revealed_state) = true /\
  stats_ok (get good_stats_snapshot f_stats) = true /\
  forall ToString StringToNumber inherits,
    lookup inherits (stats revealed_state)
      (to_string ToString (get (currentQuestion revealed_state) f_topic))
    <> Inherited /\
    stats_ok (stats (handleCheck ToString StringToNumber inherits revealed_state))
    = true /\
    stats_ok (stats (handleImportJSON halves (Some (Readable SyntaxError)) 0
                       revealed_state).1) = true /\
    stats_ok (stats (hydrate (Holds (Parsed good_stats_snapshot)) revealed_state))
    = true.
Proof.
  split; [reflexivity|]. split; [reflexivity|]. intros TS SN inh.
  assert (Hlk : lookup inh (stats revealed_state)
                  (to_string TS (get (currentQuestion revealed_state) f_topic))
                <> Inherited) by discriminate.
  destruct (stats_invariant_steps TS SN inh halves revealed_state)
    as (_ & Hsteps & _).
  destruct (Hsteps eq_refl) as (Himp & Hchk & Hload).
  split; [exact Hlk|]. split; [exact (Hchk Hlk)|].
  split; [apply Himp|]. apply Hload. reflexivity.
Defined.

(** ** The accuracy summary *)

Lemma own_entries_falsy v : truthy v = false -> own_entries v = [].
Proof.
  destruct v as [| | | |str| |]; try done.
  simpl. intros H. apply negb_false_iff, String.eqb_eq in H. by subst.
Qed.

Lemma answered_spec k e :
  answered (k, e) = true <->
  truthy e = true /\ exists t, get e f_total = JNum t /\ num_gtb t (Fin 0) = true.
Proof.
  unfold answered. simpl. rewrite andb_true_iff. split.
  - intros [Htr Ht]. split; [done|].
    destruct (get e f_total) as [| | |t| | |]; try discriminate. eauto.
  - intros [Htr (t & -> & Ht)]. done.
Qed.

(** A number above zero is not zero: the division of the accuracy panel
    has a divisor other than zero. *)
Lemma positive_not_zero t :
  num_gtb t (Fin 0) = true -> t = PosInf \/ exists q, t = Fin q /\ (0 < q)%Q.
Proof.
  destruct t as [| | |q]; try discriminate; [by left|].
  unfold num_gtb. simpl. intros H. right. exists q. split; [done|].
  by apply negb_true_iff, Qle_bool_false in H.
Qed.

Section SortFacts.

Variable localeCompare : string -> string -> comparison.

(** The comparison is consistent: any two names compare one way or the
    other, and transitively. *)
Hypothesis compare_total :
  forall a b, localeCompare a b <> Gt \/ localeCompare b a <> Gt.
Hypothesis compare_trans :
  forall a b c, localeCompare a b <> Gt -> localeCompare b c <> Gt ->
                localeCompare a c <> Gt.

Lemma key_le_ascending a b : key_le localeCompare a b = true <-> ascending localeCompare a b.
Proof.
  unfold key_le, ascending. destruct (localeCompare a.1 b.1); split; done.
Qed.

Lemma sort_insert_perm x l : sort_insert localeCompare x l ≡ₚ x :: l.
Proof.
  induction l as [|y l IH]; simpl; [done|].
  destruct (key_le localeCompare x y); [done|].
  rewrite IH. apply Permutation_swap.
Qed.

Lemma sort_entries_perm l : sort_entries localeCompare l ≡ₚ l.
Proof.
  induction l as [|x l IH]; simpl; [done|].
  by rewrite sort_insert_perm, IH.
Qed.

Lemma sort_insert_sorted x l :
  StronglySorted (ascending localeCompare) l ->
  StronglySorted (ascending localeCompare) (sort_insert localeCompare x l).
Proof.
  induction 1 as [|y l Hs IH Hy]; simpl.
  - repeat constructor.
  - destruct (key_le localeCompare x y) eqn:E.
    + apply key_le_ascending in E. constructor; [by constructor|].
      constructor; [done|].
      eapply Forall_impl; [exact Hy|]. intros z Hz.
      unfold ascending in *. eauto.
    + assert (Hyx : ascending localeCompare y x).
      { destruct (compare_total x.1 y.1) as [H|H]; [|done].
        apply key_le_ascending in H. congruence. }
      constructor; [done|].
      rewrite sort_insert_perm. by constructor.
Qed.

Lemma sort_entries_sorted l : StronglySorted (ascending localeCompare) (sort_entries localeCompare l).
Proof.
  induction l as [|x l IH]; simpl; [constructor | by apply sort_insert_sorted].
Qed.

Variable ToString : jsval -> string.
Variable StringToNumber : string -> jsnum.

(** C9.  The accuracy summary holds exactly the entries of the statistics
    whose [total] is a number above zero, in ascending order of the topic
    names under the comparison; the percentage printed for an entry is
    [Math.round(correct / total * 100)], with a divisor that is not zero;
    one correct answer out of three prints 33. *)
Theorem accuracyByTopic_summary (stats : jsval) :
  accuracyByTopic localeCompare stats
    ≡ₚ filter (fun e => answered e = true) (own_entries stats) /\
  (forall k e,
     (k, e) ∈ accuracyByTopic localeCompare stats <->
     (k, e) ∈ own_entries stats /\ truthy e = true /\
     exists t, get e f_total = JNum t /\ num_gtb t (Fin 0) = true) /\
  StronglySorted (ascending localeCompare) (accuracyByTopic localeCompare stats) /\
  (forall k e,
     (k, e) ∈ accuracyByTopic localeCompare stats ->
     exists t,
       get e f_total = JNum t /\
       (t = PosInf \/ exists q, t = Fin q /\ (0 < q)%Q) /\
       accuracy ToString StringToNumber e
       = Math_round
           (num_mul (num_div (to_number ToString StringToNumber (get e f_correct)) t)
                    (Fin 100))) /\
  accuracy ToString StringToNumber (JObj [("correct", jnat 1); ("total", jnat 3)])
  = Fin 33.
Proof.
  assert (Hperm : accuracyByTopic localeCompare stats
                    ≡ₚ filter (fun e => answered e = true) (own_entries stats)).
  { unfold accuracyByTopic. rewrite sort_entries_perm.
    destruct (truthy stats) eqn:E; [done|]. by rewrite own_entries_falsy. }
  assert (Hmem : forall k e,
            (k, e) ∈ accuracyByTopic localeCompare stats <->
            (k, e) ∈ own_entries stats /\ truthy e = true /\
            exists t, get e f_total = JNum t /\ num_gtb t (Fin 0) = true).
  { intros k e. rewrite Hperm, list_elem_of_filter, answered_spec. tauto. }
  split; [exact Hperm|]. split; [exact Hmem|].
  split; [apply sort_entries_sorted|]. split.
  - intros k e (_ & _ & t & Ht & Hpos)%Hmem. exists t.
    split; [done|]. split; [by apply positive_not_zero|].
    unfold accuracy. by rewrite Ht.
  - vm_compute. reflexivity.
Qed.

End SortFacts.

(** The quotient is rounded to a double before it is scaled: 57 correct
    answers out of 200 print 28, one out of 200 prints 1. *)
Example accuracy_rounds_as_doubles ToString StringToNumber :
  accuracy ToString StringToNumber
    (JObj [("total", jnat 200); ("correct", jnat 57)]) = Fin 28 /\
  accuracy ToString StringToNumber
    (JObj [("total", jnat 200); ("correct", jnat 1)]) = Fin 1.
Proof. split; vm_compute; reflexivity. Qed.

(** The order of the code units of two names is a consistent comparison. *)
Lemma compare_units_total a b : String.compare a b <> Gt \/ String.compare b a <> Gt.
Proof.
  rewrite (String.compare_antisym b a).
  destruct (String.compare a b); simpl; auto.
Qed.

Lemma compare_units_trans a b c :
  String.compare a b <> Gt -> String.compare b c <> Gt -> String.compare a c <> Gt.
Proof.
  intros Hab Hbc.
  destruct (String.compare a b) eqn:E1; [| |done].
  - apply String.compare_eq_iff in E1. by subst.
  - destruct (String.compare b c) eqn:E2; [| |done].
    + apply String.compare_eq_iff in E2. subst. by rewrite E1.
    + apply OrderedTypeEx.String_as_OT.cmp_lt in E1, E2.
      pose proof (OrderedTypeEx.String_as_OT.lt_trans _ _ _ E1 E2) as H.
      apply OrderedTypeEx.String_as_OT.cmp_lt in H.
      unfold OrderedTypeEx.String_as_OT.cmp in H. by rewrite H.
Qed.

Lemma accuracyByTopic_summary_witness :
  (forall a b, String.compare a b <> Gt \/ String.compare b a <> Gt) /\
  (forall a b c, String.compare a b <> Gt -> String.compare b c <> Gt ->
                 String.compare a c <> Gt) /\
  fst <$> accuracyByTopic String.compare sample_stats = ["Anatomy"; "Physiology"] /\
  forall ToString StringToNumber,
    StronglySorted (ascending String.compare)
      (accuracyByTopic String.compare sample_stats) /\
    accuracy ToString StringToNumber <$> (snd <$> accuracyByTopic String.compare sample_stats)
    = [Fin 100; Fin 33].
Proof.
  split; [exact compare_units_total|]. split; [exact compare_units_trans|].
  split; [reflexivity|]. intros TS SN.
  destruct (accuracyByTopic_summary String.compare compare_units_total
              compare_units_trans TS SN sample_stats)
    as (_ & _ & Hsorted & _ & _).
  split; [exact Hsorted | vm_compute; reflexivity].
Defined.

(** ** The development tests and navigation *)

(** The clamp keeps an index within a bank that is not empty, leaves an
    index within the bank as it is, and gives 0 for an empty bank; the
    values that [runDevTests] asserts. *)
Theorem clampIndex_contract :
  (forall idx (n : nat), (0 < n)%nat ->
     exists p, clampIndex idx n = Fin p /\
               (0 <= p)%Q /\ (p <= inject_Z (Z.of_nat n - 1))%Q) /\
  (forall (z : Z) (n : nat), (0 <= z < Z.of_nat n)%Z ->
     exists p, clampIndex (jint z) n = Fin p /\ (p == inject_Z z)%Q) /\
  (forall idx, clampIndex idx 0 = Fin 0) /\
  clampIndex (jnat 0) 10 = Fin 0 /\
  clampIndex (jnat 9) 10 = Fin 9 /\
  clampIndex (jnat 999) 10 = Fin 9 /\
  clampIndex (jint (-5)) 10 = Fin 0 /\
  clampIndex (jnat 2) 0 = Fin 0.
Proof.
  split; [exact clampIndex_range|]. split; [exact clampIndex_in_range|].
  split; [exact clampIndex_empty|]. repeat split.
Qed.

(** The validator accepts the question of [runDevTests] and rejects it with
    the answer 99 and with the answer -1. *)
Theorem isValidQuestion_dev_tests :
  isValidQuestion good = true /\
  isValidQuestion (with_answer (num_of_nat 99)) = false /\
  isValidQuestion (with_answer (Fin (-1))) = false /\
  forallb isValidQuestion initialQuestions = true.
Proof. repeat split. Qed.

(** Next at the last question wraps to the first and resets the
    per-question state; it does nothing on an empty bank. *)
Theorem handleNext_wraps (s : State) :
  (questionBank s = [] -> handleNext s = s) /\
  (questionBank s <> [] ->
   index s = Fin (inject_Z (Z.of_nat (length (questionBank s)) - 1)) ->
   exists q, index (handleNext s) = Fin q /\ (q == 0)%Q /\
             selected (handleNext s) = None /\
             showAnswer (handleNext s) = false /\
             showExplanation (handleNext s) = false /\
             questionBank (handleNext s) = questionBank s /\
             stats (handleNext s) = stats s).
Proof.
  unfold handleNext, totalQuestions. split.
  - by intros ->.
  - intros Hne Hidx.
    destruct (questionBank s) as [|q0 l] eqn:Hbank; [done|].
    set (n := length (q0 :: l)) in *.
    assert (Hn : (0 < n)%nat) by (unfold n; simpl; lia).
    clearbody n.
    replace (n <=? 0)%nat with false by (symmetry; apply Nat.leb_gt; lia).
    rewrite Hidx. cbn [num_add resetPerQuestionUI index selected showAnswer
                         showExplanation questionBank stats num_rem].
    replace (n =? 0)%nat with false by (symmetry; apply Nat.eqb_neq; lia).
    set (d := inject_Z (Z.of_nat n)).
    assert (Hd : (0 < d)%Q) by (unfold d, Qlt; simpl; lia).
    assert (Hsum : (inject_Z (Z.of_nat n - 1) + 1 == d)%Q).
    { unfold d. rewrite <- (inject_Z_plus _ 1). by replace (Z.of_nat n - 1 + 1)%Z
        with (Z.of_nat n) by lia. }
    assert (Hle : Qle_bool 0 (inject_Z (Z.of_nat n - 1) + 1) = true).
    { apply Qle_bool_iff. rewrite Hsum. by apply Qlt_le_weak. }
    rewrite Hle.
    assert (Hquot : Qfloor ((inject_Z (Z.of_nat n - 1) + 1) / d) = 1%Z).
    { rewrite Hsum.
      assert (Hone : (d / d == inject_Z 1)%Q).
      { unfold Qdiv. rewrite Qmult_inv_r; [done|]. intros E. rewrite E in Hd.
        by apply Qlt_irrefl in Hd. }
      rewrite Hone. apply Qfloor_Z. }
    rewrite Hquot. eexists. split; [reflexivity|].
    split; [|done]. rewrite Hsum. ring.
Qed.

Lemma handleNext_wraps_witness :
  questionBank (fresh_state initialQuestions) <> [] /\
  index (handleNext (fresh_state initialQuestions)) = Fin 1 /\
  exists q, index (handleNext (handleNext (fresh_state initialQuestions))) = Fin q /\
            (q == 0)%Q.
Proof.
  split; [discriminate|]. split; [reflexivity|].
  destruct (handleNext_wraps (handleNext (fresh_state initialQuestions)))
    as [_ Hwrap].
  destruct (Hwrap ltac:(discriminate) eq_refl) as (q & Hq & Hz & _).
  exists q. done.
Defined.

(** ** More on the validator *)

Lemma is_type_true t v : is_type t v = true <-> typeof v = t.
Proof. unfold is_type. apply bool_decide_eq_true. Qed.

Lemma accepted_fields q :
  isValidQuestion q = true ->
  exists props cs a,
    q = JObj props /\ get q f_choices = JArr cs /\
    forallb (is_type TString) cs = true /\
    get q f_answer = JNum (Fin a) /\
    (0 <= a)%Q /\ (a < inject_Z (Z.of_nat (length cs)))%Q.
Proof.
  intros H.
  assert (Hobj : exists props, q = JObj props).
  { destruct q; try (unfold isValidQuestion in H; simpl in H;
                     rewrite ?andb_false_r in H; discriminate). eauto. }
  destruct Hobj as [props ->]. unfold isValidQuestion in H.
  destruct (get (JObj props) f_choices) as [| | | | |cs|];
    try (rewrite andb_false_r in H; discriminate).
  destruct (get (JObj props) f_answer) as [| | |a| | |];
    try (rewrite !andb_false_r in H; discriminate).
  destruct a as [| | |a];
    try (simpl in H; rewrite !andb_false_r in H; discriminate).
  repeat match goal with
         | Hc : _ && _ = true |- _ =>
             apply andb_true_iff in Hc; destruct Hc
         end.
  exists props, cs, a. repeat split; try done.
  - match goal with Hge : num_geb _ _ = true |- _ =>
      simpl in Hge; by apply Qle_bool_iff in Hge end.
  - match goal with Hlt : num_ltb _ _ = true |- _ =>
      simpl in Hlt; apply negb_true_iff, Qle_bool_false in Hlt; exact Hlt end.
Qed.

(** An accepted question is an object and no array; it has at least one
    choice; and when its answer is a whole number, the answer indexes one of
    its choices, a string. *)
Theorem accepted_answer_indexes_choice q :
  isValidQuestion q = true ->
  typeof q = TObject /\ Array_isArray q = false /\ truthy q = true /\
  exists cs a,
    get q f_choices = JArr cs /\ get q f_answer = JNum (Fin a) /\
    cs <> [] /\
    (Number_isInteger_num (Fin a) = true ->
     exists c, arr_at cs (Fin a) = JStr c /\ JStr c ∈ cs).
Proof.
  intros (props & cs & a & -> & Hcs & Hstr & Ha & H0 & H1)%accepted_fields.
  repeat split. exists cs, a. split; [done|]. split; [done|]. split.
  - intros ->. simpl in H1. eapply Qlt_not_le; eauto.
  - intros Hw.
    assert (Hlast : (a <= inject_Z (Z.of_nat (length cs) - 1))%Q).
    { assert (Ha' : (a == inject_Z (Qfloor a))%Q) by (by apply Qeq_bool_iff).
      rewrite Ha' in H1 |- *. rewrite <- Zlt_Qlt in H1. rewrite <- Zle_Qle. lia. }
    destruct (arr_at_element cs a Hw H0 Hlast) as (c & Hc & Hin).
    rewrite forallb_forall in Hstr.
    pose proof (Hstr c (proj1 (list_elem_of_In _ _) Hin)) as Hty.
    apply is_type_true in Hty. destruct c; try discriminate.
    eexists. split; [exact Hc | done].
Qed.

Lemma accepted_answer_indexes_choice_witness :
  isValidQuestion good = true /\
  exists cs a,
    get good f_choices = JArr cs /\ get good f_answer = JNum (Fin a) /\
    cs <> [].
Proof.
  split; [reflexivity|].
  destruct (accepted_answer_indexes_choice good eq_refl)
    as (_ & _ & _ & cs & a & Hc & Ha & Hne & _).
  exists cs, a. done.
Defined.

(** ** More on the load *)

Lemma is_object_cases v :
  is_object v = true -> (exists l, v = JArr l) \/ (exists props, v = JObj props).
Proof.
  unfold is_object, is_type. intros H.
  apply andb_true_iff in H as [Ht Hty]. apply bool_decide_eq_true in Hty.
  destruct v; simpl in *; try discriminate; eauto.
Qed.

Lemma hydrate_not_object v s :
  is_object v = false -> hydrate (Holds (Parsed v)) s = s.
Proof.
  unfold is_object, hydrate. simpl safeParseJSON. intros H.
  destruct (truthy v); simpl in *; [by rewrite H | done].
Qed.

(** A stored item that is absent, empty, no JSON, no object, or an array
    leaves the state as it is.  No load touches the selection, the reveal,
    the explanation or the import message.  The load changes the bank and
    the index only together, and only to an array of accepted questions: a
    stored bank with a rejected element leaves both as they are. *)
Theorem hydrate_falls_back (s : State) :
  hydrate Absent s = s /\ hydrate Empty s = s /\
  hydrate (Holds SyntaxError) s = s /\
  (forall v, is_object v = false -> hydrate (Holds (Parsed v)) s = s) /\
  (forall l, hydrate (Holds (Parsed (JArr l))) s = s) /\
  (forall raw,
     selected (hydrate raw s) = selected s /\
     showAnswer (hydrate raw s) = showAnswer s /\
     showExplanation (hydrate raw s) = showExplanation s /\
     importError (hydrate raw s) = importError s) /\
  (forall raw,
     (questionBank (hydrate raw s) = questionBank s /\
      index (hydrate raw s) = index s) \/
     (exists saved,
        raw = Holds (Parsed saved) /\
        get saved f_questionBank = JArr (questionBank (hydrate raw s)) /\
        forallb isValidQuestion (questionBank (hydrate raw s)) = true /\
        index (hydrate raw s)
        = clampIndex (get saved f_index)
            (length (questionBank (hydrate raw s))))) /\
  (forall saved qs,
     get saved f_questionBank = JArr qs ->
     forallb isValidQuestion qs = false ->
     questionBank (hydrate (Holds (Parsed saved)) s) = questionBank s /\
     index (hydrate (Holds (Parsed saved)) s) = index s).
Proof.
  split; [done|]. split; [done|]. split; [done|].
  split; [intros v; apply hydrate_not_object|].
  split; [intros l; by destruct s|].
  assert (Hcases : forall raw,
            (exists props, raw = Holds (Parsed (JObj props))) \/
            hydrate raw s = s).
  { intros [| |[v|]]; try by right.
    destruct (is_object v) eqn:Hv; [|right; by apply hydrate_not_object].
    apply is_object_cases in Hv as [[l ->] | [props ->]].
    - right. by destruct s.
    - left. eauto. }
  split; [|split].
  - intros raw. destruct (Hcases raw) as [[props ->] | ->]; [|done].
    rewrite hydrate_object. cbv zeta.
    by destruct (match get (JObj props) f_questionBank with
                 | JArr qs => _ | _ => _ end).
  - intros raw. destruct (Hcases raw) as [[props ->] | ->]; [|by left].
    rewrite hydrate_object. cbv zeta.
    destruct (get (JObj props) f_questionBank) as [| | | | |qs|] eqn:Hb;
      try by left.
    destruct (forallb isValidQuestion qs) eqn:Hv; [|by left].
    right. exists (JObj props). simpl. done.
  - intros saved qs Hb Hv. destruct (get_array_object _ _ _ Hb) as [props ->].
    rewrite hydrate_object. cbv zeta. by rewrite Hb, Hv.
Qed.

(** ** Persistence *)

(** Induction on values, through the elements of arrays and the values of
    properties. *)
Section ValueInduction.

Variable P : jsval -> Prop.
Hypothesis Hundefined : P JUndefined.
Hypothesis Hnull : P JNull.
Hypothesis Hbool : forall b, P (JBool b).
Hypothesis Hnum : forall x, P (JNum x).
Hypothesis Hstr : forall s, P (JStr s).
Hypothesis Harr : forall l, Forall P l -> P (JArr l).
Hypothesis Hobj : forall l, Forall (fun e => P e.2) l -> P (JObj l).

Lemma jsval_induction (v : jsval) : P v.
Proof.
  revert v. fix IH 1. intros [| |b|x|s|l|l].
  - exact Hundefined.
  - exact Hnull.
  - apply Hbool.
  - apply Hnum.
  - apply Hstr.
  - apply Harr. induction l as [|x l IHl]; constructor; [apply IH | exact IHl].
  - apply Hobj. induction l as [|e l IHl]; constructor; [apply IH | exact IHl].
Qed.

End ValueInduction.

(** A value without [undefined] and without a number that is not finite
    comes back from the store as it went in. *)
Lemma json_value_clean v : json_clean v = true -> json_value v = v.
Proof.
  induction v as [| |b|x|s|l IH|l IH] using jsval_induction; try done.
  - destruct x; done.
  - simpl. intros Hc. f_equal.
    induction IH as [|x l Hx _ IHl]; [done|].
    simpl in Hc. apply andb_true_iff in Hc as [Hc1 Hc2].
    simpl. by rewrite Hx, IHl.
  - simpl. intros Hc. f_equal.
    induction IH as [|[k x] l Hx _ IHl]; [done|].
    apply andb_true_iff in Hc as [Hc1 Hc2].
    simpl in Hx. rewrite IHl by done. rewrite (Hx Hc1).
    by destruct x.
Qed.

Lemma json_value_clean_list l :
  forallb json_clean l = true -> map json_value l = l.
Proof.
  induction l as [|x l IH]; [done|]. simpl.
  intros [H1 H2]%andb_true_iff. by rewrite json_value_clean, IH.
Qed.

(** An index within the bank is its own clamp. *)
Lemma clampIndex_within p (n : nat) :
  (0 <= p)%Q -> (p <= inject_Z (Z.of_nat n - 1))%Q ->
  exists q, clampIndex (JNum (Fin p)) n = Fin q /\ (q == p)%Q.
Proof.
  intros H0 H1.
  assert (Hn : (0 < n)%nat).
  { destruct n; [|lia]. exfalso.
    assert (Hneg : (inject_Z (Z.of_nat 0 - 1) < 0)%Q) by reflexivity.
    eapply Qlt_not_le; [exact Hneg|]. eapply Qle_trans; eauto. }
  unfold clampIndex. simpl.
  replace (n <=? 0)%nat with false by (symmetry; apply Nat.leb_gt; lia).
  eexists. split; [reflexivity|].
  rewrite Q.min_l by done. by apply Q.max_r.
Qed.

(** The round trip through the store.  A state with a bank of accepted
    questions and with statistics that are an object, both without
    [undefined] and numbers that are not finite, and with an index within
    the bank, comes back from a write and a load, into any state: the bank
    in its order, the index, the accuracy flag and the statistics are those
    written, whatever the time of the write; the selection, the reveal, the
    explanation and the import message are those of the loading state. *)
Theorem persist_hydrate_round_trip (savedAt : jsnum) (s s0 : State) (p : Q) :
  forallb isValidQuestion (questionBank s) = true ->
  forallb json_clean (questionBank s) = true ->
  is_object (stats s) = true ->
  json_clean (stats s) = true ->
  index s = Fin p ->
  (0 <= p)%Q ->
  (p <= inject_Z (Z.of_nat (length (questionBank s)) - 1))%Q ->
  questionBank (hydrate (persist savedAt s) s0) = questionBank s /\
  (exists q, index (hydrate (persist savedAt s) s0) = Fin q /\ (q == p)%Q) /\
  showAccuracy (hydrate (persist savedAt s) s0) = showAccuracy s /\
  stats (hydrate (persist savedAt s) s0) = stats s /\
  selected (hydrate (persist savedAt s) s0) = selected s0 /\
  showAnswer (hydrate (persist savedAt s) s0) = showAnswer s0 /\
  showExplanation (hydrate (persist savedAt s) s0) = showExplanation s0 /\
  importError (hydrate (persist savedAt s) s0) = importError s0.
Proof.
  intros Hvalid Hclean Hobj Hstats Hidx H0 H1.
  assert (Hst : exists x, stats s = x /\ x <> JUndefined /\ json_value x = x).
  { exists (stats s). split; [done|]. split; [|by apply json_value_clean].
    intros E. rewrite E in Hobj. discriminate. }
  destruct Hst as (x & Hx & Hxu & Hxv).
  assert (Hsaved :
    json_value (payload savedAt s)
    = JObj [("questionBank", JArr (questionBank s)); ("index", JNum (Fin p));
            ("showAccuracy", JBool (showAccuracy s)); ("stats", x);
            ("schemaVersion", jnat 1); ("savedAt", json_value (JNum savedAt))]).
  { unfold payload. rewrite Hidx, Hx. simpl.
    rewrite (json_value_clean_list _ Hclean), Hxv.
    destruct x; done. }
  unfold persist. rewrite Hsaved, hydrate_object. cbv zeta.
  change (get (JObj _) f_questionBank) with (JArr (questionBank s)).
  change (get (JObj _) f_index) with (JNum (Fin p)).
  change (get (JObj _) f_stats) with x.
  change (get (JObj _) f_showAccuracy) with (JBool (showAccuracy s)).
  cbv beta iota. rewrite Hvalid. rewrite <- Hx, Hobj. simpl.
  split; [done|]. split; [|done].
  by apply clampIndex_within.
Qed.

(** ** Invariants *)

Lemma num_rem_range x (n : nat) :
  (0 <= x)%Q -> (0 < n)%nat ->
  exists r, num_rem (Fin x) n = Fin r /\
            (0 <= r)%Q /\ (r < inject_Z (Z.of_nat n))%Q.
Proof.
  intros Hx Hn. unfold num_rem.
  replace (n =? 0)%nat with false by (symmetry; apply Nat.eqb_neq; lia).
  replace (Qle_bool 0 x) with true by (symmetry; by apply Qle_bool_iff).
  set (d := inject_Z (Z.of_nat n)).
  assert (Hd : (0 < d)%Q) by (unfold d, Qlt; simpl; lia).
  assert (Hd0 : ~ (d == 0)%Q).
  { intros E. rewrite E in Hd. by apply Qlt_irrefl in Hd. }
  pose proof (Qfloor_le (x / d)) as Hlo.
  pose proof (Qlt_floor (x / d)) as Hhi.
  apply (Qmult_le_l _ _ d Hd) in Hlo.
  apply (Qmult_lt_l _ _ d Hd) in Hhi.
  rewrite Qmult_div_r in Hlo, Hhi by done.
  rewrite inject_Z_plus, Qmult_plus_distr_r, Qmult_1_r in Hhi.
  eexists. split; [reflexivity|]. unfold Qminus. split.
  - by apply Qle_minus_iff in Hlo.
  - apply Qlt_minus_iff in Hhi. apply Qlt_minus_iff.
    assert (E : (d + - (x + - (d * inject_Z (Qfloor (x / d))))
                 == d * inject_Z (Qfloor (x / d)) + d + - x)%Q) by ring.
    by rewrite E.
Qed.

Lemma Qfloor_ratio (z : Z) (n : positive) :
  Qfloor (inject_Z z / inject_Z (Zpos n)) = (z / Zpos n)%Z.
Proof.
  unfold Qdiv, Qinv, Qmult, Qfloor, inject_Z. simpl.
  by rewrite Z.mul_1_r.
Qed.

(** The remainder of a whole number is the remainder of the integers. *)
Lemma num_rem_whole x (z : Z) (n : nat) :
  (x == inject_Z z)%Q -> (0 <= z)%Z -> (0 < n)%nat ->
  exists r, num_rem (Fin x) n = Fin r /\
            (r == inject_Z (z mod Z.of_nat n))%Q.
Proof.
  intros Hx Hz Hn. unfold num_rem.
  replace (n =? 0)%nat with false by (symmetry; apply Nat.eqb_neq; lia).
  replace (Qle_bool 0 x) with true
    by (symmetry; apply Qle_bool_iff; rewrite Hx; unfold Qle; simpl; lia).
  eexists. split; [reflexivity|].
  destruct (Z.of_nat n) as [|m|m] eqn:En; try lia.
  assert (Hfl : Qfloor (x / inject_Z (Z.pos m)) = (z / Z.pos m)%Z).
  { rewrite <- Qfloor_ratio. apply Qfloor_comp. by rewrite Hx. }
  rewrite Hfl. unfold Qminus.
  transitivity (inject_Z z + - (inject_Z (Z.pos m) * inject_Z (z / Z.pos m)))%Q.
  { by rewrite Hx. }
  rewrite <- inject_Z_mult, <- inject_Z_opp, <- inject_Z_plus.
  rewrite (Z.mod_eq z (Z.pos m)) by lia. apply inject_Z_injective. lia.
Qed.

Lemma forallb_perm {A} (f : A -> bool) (l l' : list A) :
  l ≡ₚ l' -> forallb f l = forallb f l'.
Proof.
  induction 1 as [|x l l' _ IH|x y l|l l' l'' _ IH1 _ IH2]; simpl.
  - done.
  - by rewrite IH.
  - by rewrite !andb_assoc, (andb_comm (f y)).
  - by rewrite IH1.
Qed.

Lemma index_in_bank_zero bank sel rev expl st acc err :
  index_in_bank (mkState bank (Fin 0) sel rev expl st acc err).
Proof.
  exists 0%Q. split; [done|]. split; [apply Qle_refl|].
  simpl. unfold Qlt. simpl. lia.
Qed.

Lemma index_in_bank_clamp idx bank sel rev expl st acc err :
  index_in_bank
    (mkState bank (clampIndex idx (length bank)) sel rev expl st acc err).
Proof.
  destruct bank as [|q bank].
  - rewrite clampIndex_empty. apply index_in_bank_zero.
  - destruct (clampIndex_range idx (length (q :: bank))) as (p & Hp & H0 & H1);
      [simpl; lia|].
    exists p. simpl questionBank. simpl index. split; [done|]. split; [done|].
    eapply Qle_lt_trans; [exact H1|]. rewrite <- Zlt_Qlt. simpl length. lia.
Qed.

Lemma recordAnswer_object ToString StringToNumber inherits prev k b :
  is_object (recordAnswer ToString StringToNumber inherits prev k b) = true.
Proof.
  unfold recordAnswer.
  by destruct (match lookup inherits prev k with
               | Own v => _ | Inherited => _ | Missing => _ end).
Qed.

(** An import either sets the message and nothing else, or adopts a
    sequence of accepted questions that is not empty. *)
Lemma handleImportJSON_cases (random : nat -> Q) (f : option file) (k : nat)
    (s : State) :
  (exists msg, handleImportJSON random f k s = (setImportError msg s, k)) \/
  (exists qs,
     forallb isValidQuestion qs = true /\ qs <> [] /\
     handleImportJSON random f k s
     = (mkState (shuffleList random k qs).1 (Fin 0) None false false
          (JObj []) (showAccuracy s) "",
        (shuffleList random k qs).2)).
Proof.
  destruct f as [[|r]|]; [left; eexists; reflexivity | | left; eexists; reflexivity].
  unfold handleImportJSON.
  destruct (if Array_isArray (safeParseJSON r) then safeParseJSON r
            else get (safeParseJSON r) f_questions)
    as [| | | | |qs|]; try (left; eexists; reflexivity).
  destruct qs as [|q qs]; [left; eexists; reflexivity|].
  change (length (q :: qs) =? 0)%nat with false. cbv iota.
  destruct (forallb isValidQuestion (q :: qs)) eqn:Hv; [|left; eexists; reflexivity].
  right. exists (q :: qs). split; [done|]. split; [done|].
  simpl negb. cbv iota. by destruct (shuffleList random k (q :: qs)).
Qed.

Section InvFacts.

Variable ToString : jsval -> string.
Variable StringToNumber : string -> jsnum.
Variable inherits : jsval -> string -> bool.
Variable random : nat -> Q.

Lemma Inv_fresh bank k :
  forallb isValidQuestion bank = true ->
  Inv (fresh_state (shuffleList random k bank).1).
Proof.
  intros Hv. split; try done.
  - simpl. by rewrite (forallb_perm _ _ _ (shuffleList_perm random k bank)).
  - apply index_in_bank_zero.
Qed.

Lemma Inv_hydrate raw s : Inv s -> Inv (hydrate raw s).
Proof.
  intros [Hb Hs Hi Hr].
  assert (Hcases : (exists props, raw = Holds (Parsed (JObj props))) \/
                   hydrate raw s = s).
  { destruct raw as [| |[v|]]; try by right.
    destruct (is_object v) eqn:Hv; [|right; by apply hydrate_not_object].
    apply is_object_cases in Hv as [[l ->] | [props ->]].
    - right. by destruct s.
    - left. eauto. }
  destruct Hcases as [[props ->] | ->]; [|done].
  rewrite hydrate_object. cbv zeta.
  assert (Hst : is_object (if is_object (get (JObj props) f_stats)
                           then get (JObj props) f_stats else stats s) = true).
  { by destruct (is_object (get (JObj props) f_stats)) eqn:E. }
  destruct (get (JObj props) f_questionBank) as [| | | | |qs|];
    try (split; done).
  destruct (forallb isValidQuestion qs) eqn:Hv; [|split; done].
  split; try done. apply index_in_bank_clamp.
Qed.

Lemma Inv_step e w :
  Inv w.1 -> Inv (step ToString StringToNumber inherits random e w).1.
Proof.
  destruct w as [s k]. simpl. intros HI. pose proof HI as [Hb Hs Hi Hr].
  destruct e as [i| | | | | | |f]; simpl.
  - unfold setSelected. destruct (showAnswer s) eqn:E; split; try done.
    intros _. by apply Hr.
  - unfold handleCheck. cbv zeta.
    destruct (negb (truthy (currentQuestion s))); [by destruct (selected s)|].
    destruct (selected s) as [i|]; [|exact HI].
    split; try done. apply recordAnswer_object.
  - unfold handleNext, totalQuestions.
    destruct (length (questionBank s) <=? 0)%nat eqn:E; [done|].
    apply Nat.leb_gt in E. split; try done.
    destruct Hi as (p & Hp & H0 & _). rewrite Hp. simpl.
    assert (Hx : (0 <= p + 1)%Q).
    { apply (Qle_trans _ (0 + 0)); [done|]. by apply Qplus_le_compat. }
    destruct (num_rem_range (p + 1) (length (questionBank s)) Hx E)
      as (r & Hrem & Hr0 & Hr1).
    exists r. split; [exact Hrem|]. split; [done|].
    eapply Qlt_le_trans; [exact Hr1|]. rewrite <- Zle_Qle.
    cbn [questionBank resetPerQuestionUI]. lia.
  - unfold handleShuffle.
    pose proof (shuffleList_perm random k (questionBank s)) as Hp.
    destruct (shuffleList random k (questionBank s)) as [bank k'].
    simpl in *. split; try done.
    + simpl. by rewrite (forallb_perm _ _ _ Hp).
    + apply index_in_bank_zero.
  - split; try done. apply index_in_bank_zero.
  - done.
  - done.
  - destruct (handleImportJSON_cases random f k s)
      as [[msg ->] | (qs & Hv & _ & ->)]; [done|].
    split; try done.
    + simpl. by rewrite (forallb_perm _ _ _ (shuffleList_perm random k qs)).
    + apply index_in_bank_zero.
Qed.

End InvFacts.

Lemma clampIndex_whole_or_not_finite idx n :
  match idx with
  | JNum (Fin p) => Number_isInteger_num (Fin p) = true
  | _ => True
  end ->
  Number_isInteger_num (clampIndex idx n) = true.
Proof.
  intros H. destruct idx as [| | |x| | |]; try (by apply clampIndex_whole).
  destruct x as [| | |p]; try (by rewrite clampIndex_not_finite).
  by apply clampIndex_whole.
Qed.

Lemma whole_hydrate raw s :
  stored_index_whole raw ->
  Number_isInteger_num (index s) = true ->
  Number_isInteger_num (index (hydrate raw s)) = true.
Proof.
  intros Hraw Hs.
  destruct raw as [| |[saved|]]; try done.
  destruct (is_object saved) eqn:Hv; [|by rewrite hydrate_not_object].
  apply is_object_cases in Hv as [[l ->] | [props ->]]; [by destruct s|].
  rewrite hydrate_object. cbv zeta. simpl in Hraw.
  destruct (get (JObj props) f_questionBank) as [| | | | |qs|]; try done.
  destruct (forallb isValidQuestion qs); [|done].
  simpl. by apply clampIndex_whole_or_not_finite.
Qed.

Lemma whole_is_integer x :
  Number_isInteger_num x = true -> exists p, x = Fin p /\ (p == inject_Z (Qfloor p))%Q.
Proof.
  destruct x as [| | |p]; try discriminate. intros H. exists p.
  split; [done|]. by apply Qeq_bool_iff.
Qed.

Lemma handleNext_index s p (z : Z) :
  index s = Fin p -> (p == inject_Z z)%Q -> (0 <= z)%Z ->
  questionBank s <> [] ->
  exists q, index (handleNext s) = Fin q /\
            (q == inject_Z ((z + 1) mod Z.of_nat (length (questionBank s))))%Q.
Proof.
  intros Hp Hz H0 Hne. unfold handleNext, totalQuestions.
  assert (Hn : (0 < length (questionBank s))%nat).
  { destruct (questionBank s); [done | simpl; lia]. }
  replace (length (questionBank s) <=? 0)%nat with false
    by (symmetry; apply Nat.leb_gt; lia).
  rewrite Hp. cbn [resetPerQuestionUI index num_add].
  apply (num_rem_whole (p + 1) (z + 1)); [|lia|done].
  rewrite Hz, inject_Z_plus. done.
Qed.

Section SessionFacts.

Variable ToString : jsval -> string.
Variable StringToNumber : string -> jsnum.
Variable inherits : jsval -> string -> bool.
Variable random : nat -> Q.

#[local] Abbreviation step' := (step ToString StringToNumber inherits random).
#[local] Abbreviation run' := (run ToString StringToNumber inherits random).

Lemma Inv_run es w : Inv w.1 -> Inv (run' es w).1.
Proof.
  revert w. induction es as [|e es IH]; intros w Hw; [done|].
  simpl. apply IH. by apply Inv_step.
Qed.

Lemma Inv_initial k : Inv (initialState random k).1.
Proof.
  unfold initialState.
  pose proof (Inv_fresh random initialQuestions k eq_refl) as H.
  by destruct (shuffleList random k initialQuestions).
Qed.

(** The invariants hold in every state of a session: after the first
    render, after the load from a store that holds anything at all, and
    after every event that follows. *)
Theorem session_keeps_invariants (raw : item) (k : nat) (es : list event) :
  Inv (run' es (hydrate raw (initialState random k).1,
                (initialState random k).2)).1.
Proof. apply Inv_run. simpl. apply Inv_hydrate, Inv_initial. Qed.

Lemma whole_step e w :
  Inv w.1 ->
  Number_isInteger_num (index w.1) = true ->
  Number_isInteger_num (index (step' e w).1) = true.
Proof.
  destruct w as [s k]. simpl. intros HI Hw.
  assert (Hz : Number_isInteger_num (Fin 0) = true) by apply (isInteger_inject 0).
  destruct e as [i| | | | | | |f]; simpl; try done.
  - unfold setSelected. by destruct (showAnswer s).
  - unfold handleCheck. cbv zeta.
    by destruct (negb (truthy (currentQuestion s))), (selected s).
  - destruct (questionBank s) as [|q0 l] eqn:Hb.
    { unfold handleNext, totalQuestions. by rewrite Hb. }
    destruct (whole_is_integer _ Hw) as (p & Hp & Hfl).
    destruct (inv_index _ HI) as (p' & Hp' & H0 & _).
    assert (p' = p) by congruence. subst p'.
    assert (Hf0 : (0 <= Qfloor p)%Z).
    { rewrite Hfl in H0. unfold Qle in H0. simpl in H0. lia. }
    destruct (handleNext_index s p (Qfloor p) Hp Hfl Hf0) as (q & Hq & Hqz);
      [by rewrite Hb|].
    rewrite Hq. unfold Number_isInteger_num. apply Qeq_bool_iff.
    rewrite Hqz at 2. by rewrite Qfloor_Z.
  - unfold handleShuffle. by destruct (shuffleList random k (questionBank s)).
  - destruct (handleImportJSON_cases random f k s)
      as [[msg ->] | (qs & _ & _ & ->)]; done.
Qed.

Lemma whole_run es w :
  Inv w.1 ->
  Number_isInteger_num (index w.1) = true ->
  Number_isInteger_num (index (run' es w).1) = true.
Proof.
  revert w. induction es as [|e es IH]; intros w HI Hw; [done|].
  simpl. apply IH; [by apply Inv_step | by apply whole_step].
Qed.

(** What React renders of accepted questions and of recorded answers. *)
Lemma child_ok_string v : is_type TString v = true -> child_ok v = true.
Proof. intros H. apply bool_decide_eq_true in H. by destruct v. Qed.

Lemma accepted_card_ok s q : isValidQuestion q = true -> card_ok s q = true.
Proof.
  intros H. unfold isValidQuestion in H. unfold card_ok.
  destruct (get q f_choices) as [| | | | |cs|];
    try (rewrite andb_false_r in H; discriminate).
  destruct (get q f_answer) as [| | |a| | |];
    try (rewrite !andb_false_r in H; discriminate).
  repeat match goal with
         | Hc : _ && _ = true |- _ => apply andb_true_iff in Hc; destruct Hc
         end.
  rewrite (child_ok_string (get q f_topic)), (child_ok_string (get q f_stem)),
    (child_ok_string (get q f_explanation)) by done.
  rewrite orb_true_r, andb_true_r. simpl.
  apply forallb_forall. intros c Hc. apply child_ok_string.
  match goal with
  | Hs : forallb (is_type TString) cs = true |- _ =>
      rewrite forallb_forall in Hs; by apply Hs
  end.
Qed.

Lemma js_add_child_ok a b :
  child_ok (js_add ToString StringToNumber a b) = true.
Proof.
  unfold js_add.
  by destruct (match a with JStr _ | JArr _ | JObj _ => true | _ => false end
               || match b with JStr _ | JArr _ | JObj _ => true | _ => false end).
Qed.

Lemma recordAnswer_render prev key (b : bool) :
  stats_render prev = true ->
  stats_render (recordAnswer ToString StringToNumber inherits prev key b) = true.
Proof.
  intros Hp. unfold recordAnswer.
  destruct (match lookup inherits prev key with
            | Own v => if truthy v then (get v f_total, get v f_correct)
                       else (jnat 0, jnat 0)
            | Inherited => (JUndefined, JUndefined)
            | Missing => (jnat 0, jnat 0)
            end) as [total correct].
  unfold stats_render. cbn [own_entries].
  apply forallb_obj_set; [exact Hp|].
  intros k'. apply js_add_child_ok.
Qed.

Lemma stats_render_panel_ok s : stats_render (stats s) = true -> panel_ok s = true.
Proof.
  intros H. unfold panel_ok. apply orb_true_iff. right.
  apply forallb_forall. intros e He.
  apply list_elem_of_In, list_elem_of_filter in He as [_ He].
  destruct (truthy (stats s)); [|by apply elem_of_nil in He].
  unfold stats_render in H. rewrite forallb_forall in H.
  by apply H, list_elem_of_In.
Qed.

Lemma stats_render_hydrate raw s :
  stored_stats_render raw ->
  stats_render (stats s) = true -> stats_render (stats (hydrate raw s)) = true.
Proof.
  intros Hraw Hs. destruct raw as [| |r]; try done.
  rewrite hydrate_stats.
  destruct r as [saved|]; [|done]. simpl in *.
  destruct (is_object saved); [|done].
  destruct (is_object (get saved f_stats)); [|done].
  by apply Hraw.
Qed.

Lemma stats_render_step e w :
  stats_render (stats w.1) = true -> stats_render (stats (step' e w).1) = true.
Proof.
  destruct w as [s k]. simpl. intros Hs.
  destruct e as [i| | | | | | |f]; simpl; try done.
  - unfold setSelected. by destruct (showAnswer s).
  - unfold handleCheck. cbv zeta.
    destruct (negb (truthy (currentQuestion s))); [by destruct (selected s)|].
    destruct (selected s) as [i|]; [|done].
    simpl. by apply recordAnswer_render.
  - unfold handleNext. by destruct (totalQuestions s <=? 0)%nat.
  - unfold handleShuffle. by destruct (shuffleList random k (questionBank s)).
  - destruct (handleImportJSON_cases random f k s)
      as [[msg ->] | (qs & _ & _ & ->)]; done.
Qed.

Lemma stats_render_run es w :
  stats_render (stats w.1) = true -> stats_render (stats (run' es w).1) = true.
Proof.
  revert w. induction es as [|e es IH]; intros w Hw; [done|].
  simpl. apply IH. by apply stats_render_step.
Qed.

(** In a state within the invariants whose index is a whole number, a bank
    that is not empty never shows that no question is loaded: the current
    question is a question of the bank, at the index, and its card is
    rendered unless the accuracy panel fails. *)
Lemma shows_question s :
  Inv s -> Number_isInteger_num (index s) = true -> questionBank s <> [] ->
  exists q, currentQuestion s = q /\ q ∈ questionBank s /\
            isValidQuestion q = true /\
            render s
            = if panel_ok s
              then QuestionCard q (bool_decide (selected s = None) || showAnswer s)
              else RenderFails.
Proof.
  intros HI Hw Hne. destruct (inv_index _ HI) as (p & Hp & H0 & H1).
  assert (Hf : (p == inject_Z (Qfloor p))%Q).
  { rewrite Hp in Hw. by apply Qeq_bool_iff. }
  assert (Hlen : (0 < length (questionBank s))%nat).
  { destruct (questionBank s); [done | simpl; lia]. }
  assert (Hlast : (p <= inject_Z (Z.of_nat (length (questionBank s)) - 1))%Q).
  { rewrite Hf in H1 |- *. rewrite <- Zlt_Qlt in H1. rewrite <- Zle_Qle. lia. }
  destruct (clampIndex_within p _ H0 Hlast) as (q' & Hq' & Heq).
  assert (Hwq : Number_isInteger_num (Fin q') = true).
  { rewrite <- Hq'. apply clampIndex_whole. by rewrite <- Hp. }
  destruct (arr_at_element (questionBank s) q' Hwq) as (q & Hq & Hin).
  { by rewrite Heq. }
  { by rewrite Heq. }
  assert (Hcur : currentQuestion s = q).
  { unfold currentQuestion, totalQuestions. by rewrite Hp, Hq'. }
  assert (Hv : isValidQuestion q = true).
  { pose proof (inv_bank _ HI) as Hb. rewrite forallb_forall in Hb.
    apply Hb. by apply list_elem_of_In. }
  exists q. split; [done|]. split; [done|]. split; [done|].
  unfold render. rewrite Hcur, (accepted_card_ok s q Hv).
  destruct (accepted_fields q Hv) as (props & _ & _ & -> & _). done.
Qed.

(** A session whose store holds no fractional index never shows that no
    question is loaded while its bank is not empty, whatever the events: the
    current question is a question of the bank, and its card is rendered
    unless the accuracy panel is shown with an answered topic whose
    [correct] React refuses to render.  When the stored statistics, if
    adopted, hold no such [correct], the card is rendered. *)
Theorem session_shows_question (raw : item) (k : nat) (es : list event) :
  stored_index_whole raw ->
  questionBank (run' es (hydrate raw (initialState random k).1,
                         (initialState random k).2)).1 <> [] ->
  exists q,
    q ∈ questionBank (run' es (hydrate raw (initialState random k).1,
                               (initialState random k).2)).1 /\
    isValidQuestion q = true /\
    currentQuestion (run' es (hydrate raw (initialState random k).1,
                              (initialState random k).2)).1 = q /\
    render (run' es (hydrate raw (initialState random k).1,
                     (initialState random k).2)).1
    = (if panel_ok (run' es (hydrate raw (initialState random k).1,
                             (initialState random k).2)).1
       then QuestionCard q
              (bool_decide
                 (selected (run' es (hydrate raw (initialState random k).1,
                                     (initialState random k).2)).1 = None)
               || showAnswer (run' es (hydrate raw (initialState random k).1,
                                       (initialState random k).2)).1)
       else RenderFails) /\
    (stored_stats_render raw ->
     exists disabled,
       render (run' es (hydrate raw (initialState random k).1,
                        (initialState random k).2)).1
       = QuestionCard q disabled).
Proof.
  intros Hraw Hne.
  set (w := run' es (hydrate raw (initialState random k).1,
                     (initialState random k).2)) in *.
  assert (HI : Inv w.1).
  { apply Inv_run. simpl. apply Inv_hydrate, Inv_initial. }
  destruct (shows_question w.1 HI) as (q & Hcur & Hin & Hv & Hr); [|done|].
  - apply whole_run; simpl.
    + apply Inv_hydrate, Inv_initial.
    + apply whole_hydrate; [done|].
      unfold initialState.
      by destruct (shuffleList random k initialQuestions).
  - exists q. split; [done|]. split; [done|]. split; [done|].
    split; [exact Hr|]. intros Hst.
    assert (Hp : panel_ok w.1 = true).
    { apply stats_render_panel_ok, stats_render_run. simpl.
      apply stats_render_hydrate; [done|].
      unfold initialState.
      by destruct (shuffleList random k initialQuestions). }
    rewrite Hp in Hr. eauto.
Qed.

End SessionFacts.

Lemma session_shows_question_witness :
  stored_index_whole (Holds (Parsed far_index_stats_snapshot)) /\
  stored_stats_render (Holds (Parsed far_index_stats_snapshot)) /\
  forall ToString StringToNumber inherits,
    questionBank
      (run ToString StringToNumber inherits halves [Select 0; Check; Next]
         (hydrate (Holds (Parsed far_index_stats_snapshot))
            (initialState halves 0).1,
          (initialState halves 0).2)).1 <> [] /\
    exists q disabled,
      render
        (run ToString StringToNumber inherits halves [Select 0; Check; Next]
           (hydrate (Holds (Parsed far_index_stats_snapshot))
              (initialState halves 0).1,
            (initialState halves 0).2)).1
      = QuestionCard q disabled.
Proof.
  assert (Hraw : stored_index_whole (Holds (Parsed far_index_stats_snapshot))).
  { apply (isInteger_inject 7). }
  assert (Hst : stored_stats_render (Holds (Parsed far_index_stats_snapshot))).
  { intros _. reflexivity. }
  split; [exact Hraw|]. split; [exact Hst|]. intros TS SN inh.
  assert (Hne : questionBank
                  (run TS SN inh halves [Select 0; Check; Next]
                     (hydrate (Holds (Parsed far_index_stats_snapshot))
                        (initialState halves 0).1,
                      (initialState halves 0).2)).1 <> []) by discriminate.
  split; [exact Hne|].
  destruct (session_shows_question TS SN inh halves
              (Holds (Parsed far_index_stats_snapshot)) 0 [Select 0; Check; Next]
              Hraw Hne) as (q & _ & _ & _ & _ & Hr).
  destruct (Hr Hst) as (d & Hd).
  exists q, d. exact Hd.
Defined.

(** A stored index that is a fraction strictly within the bank is adopted
    as it is, and the component then shows that no question is loaded
    although the adopted bank is not empty. *)
Theorem fractional_index_hides_bank (saved : jsval) (s : State)
    (qs : list jsval) (p : Q) :
  get saved f_questionBank = JArr qs ->
  forallb isValidQuestion qs = true ->
  get saved f_index = JNum (Fin p) ->
  Number_isInteger_num (Fin p) = false ->
  (0 < p)%Q -> (p < inject_Z (Z.of_nat (length qs) - 1))%Q ->
  questionBank (hydrate (Holds (Parsed saved)) s) = qs /\
  qs <> [] /\
  index (hydrate (Holds (Parsed saved)) s) = Fin p /\
  currentQuestion (hydrate (Holds (Parsed saved)) s) = JUndefined /\
  render (hydrate (Holds (Parsed saved)) s) = NoQuestionsLoaded.
Proof.
  intros Hb Hv Hi Hfrac H0 H1.
  destruct (hydrate_bank saved s qs Hb Hv) as [Hbank Hidx].
  assert (Hn : (length qs <=? 0)%nat = false).
  { apply Nat.leb_gt. destruct qs; [|simpl; lia]. exfalso.
    assert (Hneg : (inject_Z (Z.of_nat 0 - 1) < 0)%Q) by reflexivity.
    simpl in H1. eapply Qlt_irrefl, Qlt_trans; [exact H0|].
    eapply Qlt_trans; eauto. }
  assert (Hclamp : clampIndex (JNum (Fin p)) (length qs) = Fin p).
  { assert (Hmin : Qmin p (inject_Z (Z.of_nat (length qs) - 1)) = p).
    { unfold Qmin, GenericMinMax.gmin.
      destruct (p ?= inject_Z (Z.of_nat (length qs) - 1))%Q eqn:E; try done.
      apply Qgt_alt in E. exfalso. eapply Qlt_irrefl, Qlt_trans; eauto. }
    assert (Hmax : Qmax 0 p = p).
    { unfold Qmax, GenericMinMax.gmax.
      destruct (0 ?= p)%Q eqn:E; try done.
      - apply Qeq_alt in E. rewrite <- E in H0. by apply Qlt_irrefl in H0.
      - apply Qgt_alt in E. exfalso. eapply Qlt_irrefl, Qlt_trans; eauto. }
    unfold clampIndex. cbn [Number_isFinite_num negb orb]. rewrite Hn.
    cbn [Math_min Math_max]. by rewrite Hmin, Hmax. }
  rewrite Hi, Hclamp in Hidx.
  assert (Hcur : currentQuestion (hydrate (Holds (Parsed saved)) s) = JUndefined).
  { unfold currentQuestion, totalQuestions. rewrite Hbank, Hidx, Hclamp.
    unfold arr_at. by rewrite Hfrac. }
  split; [done|]. split; [by intros ->|]. split; [done|]. split; [done|].
  unfold render. by rewrite Hcur.
Qed.

Lemma fractional_index_hides_bank_witness :
  get half_index_snapshot f_questionBank = JArr initialQuestions /\
  forallb isValidQuestion initialQuestions = true /\
  Number_isInteger_num (Fin (1 # 2)) = false /\
  (0 < 1 # 2)%Q /\ (1 # 2 < inject_Z (Z.of_nat (length initialQuestions) - 1))%Q /\
  render (hydrate (Holds (Parsed half_index_snapshot)) (fresh_state [good]))
  = NoQuestionsLoaded.
Proof.
  assert (H0 : (0 < 1 # 2)%Q) by reflexivity.
  assert (H1 : (1 # 2 < inject_Z (Z.of_nat (length initialQuestions) - 1))%Q)
    by reflexivity.
  split; [reflexivity|]. split; [reflexivity|]. split; [reflexivity|].
  split; [exact H0|]. split; [exact H1|].
  exact (proj2 (proj2 (proj2 (proj2
           (fractional_index_hides_bank half_index_snapshot (fresh_state [good])
              initialQuestions (1 # 2) eq_refl eq_refl eq_refl eq_refl H0 H1))))).
Defined.

(** ** Navigation *)

Lemma handleNext_frame s :
  questionBank (handleNext s) = questionBank s /\
  stats (handleNext s) = stats s /\
  showAccuracy (handleNext s) = showAccuracy s /\
  importError (handleNext s) = importError s.
Proof.
  unfold handleNext. by destruct (totalQuestions s <=? 0)%nat.
Qed.

(** Next walks round the bank: from a whole index [z] within a bank of [n]
    questions, [m] presses lead to the index [(z + m) mod n], so [n] presses
    lead back to [z]; the bank, the statistics, the accuracy flag and the
    import message stay as they are. *)
Theorem next_walks_round (s : State) (p : Q) (z : Z) (m : nat) :
  index s = Fin p -> (p == inject_Z z)%Q ->
  (0 <= z < Z.of_nat (length (questionBank s)))%Z ->
  (exists q, index (Nat.iter m handleNext s) = Fin q /\
     (q == inject_Z ((z + Z.of_nat m) mod Z.of_nat (length (questionBank s))))%Q) /\
  questionBank (Nat.iter m handleNext s) = questionBank s /\
  stats (Nat.iter m handleNext s) = stats s /\
  (exists q, index (Nat.iter (length (questionBank s)) handleNext s) = Fin q /\
     (q == inject_Z z)%Q).
Proof.
  intros Hp Hz Hrange.
  assert (Hne : questionBank s <> []).
  { intros E. rewrite E in Hrange. simpl in Hrange. lia. }
  assert (Hiter : forall m,
    (exists q, index (Nat.iter m handleNext s) = Fin q /\
       (q == inject_Z ((z + Z.of_nat m)
                        mod Z.of_nat (length (questionBank s))))%Q) /\
    questionBank (Nat.iter m handleNext s) = questionBank s /\
    stats (Nat.iter m handleNext s) = stats s).
  { clear m. induction m as [|m (IHi & IHb & IHs)].
    - simpl. split; [|done]. exists p. split; [done|].
      rewrite Z.add_0_r, Z.mod_small by lia. done.
    - simpl Nat.iter.
      destruct (handleNext_frame (Nat.iter m handleNext s)) as (Hb & Hs & _).
      split; [|by rewrite Hb, Hs].
      destruct IHi as (q & Hq & Hqz).
      destruct (handleNext_index (Nat.iter m handleNext s) q _ Hq Hqz)
        as (q' & Hq' & Hqz').
      { apply Z.mod_pos_bound. lia. }
      { by rewrite IHb. }
      exists q'. split; [done|]. rewrite Hqz', IHb.
      rewrite Z.add_mod_idemp_l by lia.
      by replace (z + Z.of_nat m + 1)%Z with (z + Z.of_nat (S m))%Z by lia. }
  destruct (Hiter m) as (Hi & Hb & Hs).
  split; [done|]. split; [done|]. split; [done|].
  destruct (Hiter (length (questionBank s))) as ((q & Hq & Hqz) & _).
  exists q. split; [done|]. rewrite Hqz.
  rewrite <- (Z.mul_1_l (Z.of_nat (length (questionBank s)))) at 1.
  rewrite Z.mod_add by lia. rewrite Z.mod_small by lia. done.
Qed.

Lemma next_walks_round_witness :
  index (fresh_state initialQuestions) = Fin 0 /\
  (0 <= 0 < Z.of_nat (length (questionBank (fresh_state initialQuestions))))%Z /\
  exists q, index (Nat.iter 3 handleNext (fresh_state initialQuestions)) = Fin q /\
            (q == inject_Z ((0 + Z.of_nat 3) mod 2))%Q.
Proof.
  assert (Hr : (0 <= 0 < Z.of_nat
                  (length (questionBank (fresh_state initialQuestions))))%Z)
    by (simpl; lia).
  split; [reflexivity|]. split; [exact Hr|].
  exact (proj1 (next_walks_round (fresh_state initialQuestions) 0 0 3
                  eq_refl (Qeq_refl 0) Hr)).
Defined.

(** ** Recording an answer *)

Lemma assoc_app k l l' :
  assoc k (l ++ l') = match assoc k l with Some v => Some v | None => assoc k l' end.
Proof.
  induction l as [|[k' v'] l IH]; simpl; [done|].
  by destruct (String.eqb k k').
Qed.

Lemma assoc_replace_prop_ne k k' v l :
  k' <> k -> assoc k' (replace_prop k v l) = assoc k' l.
Proof.
  intros Hne. induction l as [|[k0 v0] l IH]; simpl; [done|].
  destruct (String.eqb k k0) eqn:E; simpl; [|by rewrite IH].
  apply String.eqb_eq in E. subst k0.
  assert (Hk : String.eqb k' k = false) by (by apply String.eqb_neq).
  by rewrite ?Hk.
Qed.

Lemma assoc_insert_index_ne n k k' v l :
  k' <> k -> assoc k' (insert_index n k v l) = assoc k' l.
Proof.
  intros Hne.
  assert (Hk : String.eqb k' k = false) by (by apply String.eqb_neq).
  induction l as [|[k0 v0] l IH]; simpl; [by rewrite Hk|].
  destruct (array_index k0) as [m|]; [destruct (m <? n)%N|]; simpl;
    rewrite ?Hk, ?IH; done.
Qed.

Lemma assoc_obj_set_ne k k' v l :
  k' <> k -> assoc k' (obj_set l k v) = assoc k' l.
Proof.
  intros Hne. unfold obj_set. destruct (assoc k l).
  - by apply assoc_replace_prop_ne.
  - destruct (array_index k).
    + by apply assoc_insert_index_ne.
    + rewrite assoc_app. simpl.
      replace (String.eqb k' k) with false
        by (symmetry; by apply String.eqb_neq).
      by destruct (assoc k' l).
Qed.

Section RecordFacts.

Variable ToString : jsval -> string.
Variable StringToNumber : string -> jsnum.
Variable inherits : jsval -> string -> bool.

#[local] Abbreviation check' := (handleCheck ToString StringToNumber inherits).

(** Check Answer with a question shown and a choice selected reveals the
    answer, hides the explanation and keeps the bank, the index and the
    selection.  In statistics that are an object it touches the entry of
    the topic alone.  A topic that is new, and no member of a built-in
    prototype, gets the counters 1 and 1 or 0; a topic with whole counters
    [t] and [c], [t] below 2^53, gets [t + 1] and [c + 1] or [c]. *)
Theorem check_records_one_topic (s : State) (i : nat)
    (props : list (string * jsval)) :
  truthy (currentQuestion s) = true ->
  selected s = Some i ->
  stats s = JObj props ->
  showAnswer (check' s) = true /\
  showExplanation (check' s) = false /\
  questionBank (check' s) = questionBank s /\
  index (check' s) = index s /\
  selected (check' s) = Some i /\
  (forall k', k' <> to_string ToString (get (currentQuestion s) f_topic) ->
     own_prop (stats (check' s)) k' = own_prop (stats s) k') /\
  (assoc (to_string ToString (get (currentQuestion s) f_topic)) props = None ->
   inherits (JObj props) (to_string ToString (get (currentQuestion s) f_topic))
   = false ->
   own_prop (stats (check' s))
     (to_string ToString (get (currentQuestion s) f_topic))
   = Some (JObj [("total", jnat 1);
                 ("correct",
                  jnat (if selected_is i (get (currentQuestion s) f_answer)
                        then 1 else 0))])) /\
  (forall e c t,
     assoc (to_string ToString (get (currentQuestion s) f_topic)) props = Some e ->
     truthy e = true ->
     get e f_total = JNum (Fin t) -> get e f_correct = JNum (Fin c) ->
     whole (Fin t) = true -> whole (Fin c) = true ->
     (c <= t)%Q -> (t + 1 <= 9007199254740992)%Q ->
     own_prop (stats (check' s))
       (to_string ToString (get (currentQuestion s) f_topic))
     = Some (JObj [("total", JNum (Fin (t + 1)));
                   ("correct",
                    JNum (Fin (c + (if selected_is i (get (currentQuestion s) f_answer)
                                    then 1 else 0))))])).
Proof.
  intros Hq Hsel Hst.
  assert (Hc : check' s
               = mkState (questionBank s) (index s) (selected s) true false
                   (recordAnswer ToString StringToNumber inherits (stats s)
                      (to_string ToString (get (currentQuestion s) f_topic))
                      (selected_is i (get (currentQuestion s) f_answer)))
                   (showAccuracy s) (importError s)).
  { unfold handleCheck. by rewrite Hq, Hsel. }
  rewrite Hc. cbn [showAnswer showExplanation questionBank index selected stats].
  do 4 (split; [done|]). split; [done|]. rewrite Hst.
  set (k := to_string ToString (get (currentQuestion s) f_topic)).
  set (b := selected_is i (get (currentQuestion s) f_answer)).
  unfold recordAnswer, lookup. cbn [own_prop own_entries].
  split; [|split].
  - intros k' Hne.
    destruct (match assoc k props with
              | Some v => Own v
              | None => if inherits (JObj props) k then Inherited else Missing
              end) as [v| |]; [destruct (truthy v)| |];
      by apply assoc_obj_set_ne.
  - intros Hnone Hinh. rewrite Hnone, Hinh. cbn [own_prop].
    rewrite assoc_obj_set. by destruct b.
  - intros e c t He Htr Ht Hcr _ _ _ _. rewrite He, Htr, Ht, Hcr.
    cbn [own_prop]. rewrite assoc_obj_set. by destruct b.
Qed.

(** Once an answer is checked the selection is locked: selecting another
    choice changes nothing.  Next clears the reveal and the selection, after
    which a choice can be selected again. *)
Theorem selection_locked_after_check (s : State) (i j : nat) :
  truthy (currentQuestion s) = true ->
  selected s = Some i ->
  setSelected j (check' s) = check' s /\
  selected (check' s) = Some i /\
  showAnswer (handleNext (check' s)) = false /\
  selected (handleNext (check' s)) = None /\
  selected (setSelected j (handleNext (check' s))) = Some j.
Proof.
  intros Hq Hsel.
  assert (Hc : check' s
               = mkState (questionBank s) (index s) (selected s) true false
                   (recordAnswer ToString StringToNumber inherits (stats s)
                      (to_string ToString (get (currentQuestion s) f_topic))
                      (selected_is i (get (currentQuestion s) f_answer)))
                   (showAccuracy s) (importError s)).
  { unfold handleCheck. by rewrite Hq, Hsel. }
  assert (Hne : (totalQuestions s <=? 0)%nat = false).
  { apply Nat.leb_gt. unfold currentQuestion, totalQuestions in *.
    destruct (questionBank s); [|simpl; lia].
    rewrite clampIndex_empty in Hq. discriminate. }
  rewrite Hc. split; [done|]. split; [done|].
  unfold handleNext, totalQuestions in *. cbn [questionBank].
  rewrite Hne. done.
Qed.

End RecordFacts.

Lemma check_records_one_topic_witness :
  truthy (currentQuestion answering_state) = true /\
  selected answering_state = Some 1%nat /\
  forall ToString StringToNumber inherits,
    showAnswer (handleCheck ToString StringToNumber inherits answering_state)
    = true /\
    forall k',
      k' <> to_string ToString (get (currentQuestion answering_state) f_topic) ->
      own_prop (stats (handleCheck ToString StringToNumber inherits answering_state)) k'
      = own_prop (stats answering_state) k'.
Proof.
  split; [reflexivity|]. split; [reflexivity|]. intros TS SN inh.
  destruct (check_records_one_topic TS SN inh answering_state 1
              [("T", JObj [("total", jnat 1); ("correct", jnat 1)])]
              eq_refl eq_refl eq_refl) as (Hshow & _ & _ & _ & _ & Hframe & _).
  split; [exact Hshow | exact Hframe].
Defined.

Lemma selection_locked_after_check_witness :
  truthy (currentQuestion (setSelected 1 (fresh_state [good]))) = true /\
  selected (setSelected 1 (fresh_state [good])) = Some 1%nat /\
  forall ToString StringToNumber inherits,
    setSelected 0
      (handleCheck ToString StringToNumber inherits
         (setSelected 1 (fresh_state [good])))
    = handleCheck ToString StringToNumber inherits
        (setSelected 1 (fresh_state [good])).
Proof.
  split; [reflexivity|]. split; [reflexivity|]. intros TS SN inh.
  exact (proj1 (selection_locked_after_check TS SN inh
                  (setSelected 1 (fresh_state [good])) 1 0 eq_refl eq_refl)).
Defined.

Lemma persist_hydrate_round_trip_witness :
  forallb isValidQuestion (questionBank revealed_state) = true /\
  json_clean (stats revealed_state) = true /\
  forall savedAt s0,
    questionBank (hydrate (persist savedAt revealed_state) s0) = [good] /\
    stats (hydrate (persist savedAt revealed_state) s0) = stats revealed_state /\
    selected (hydrate (persist savedAt revealed_state) s0) = selected s0.
Proof.
  split; [reflexivity|]. split; [reflexivity|]. intros savedAt s0.
  assert (H0 : (0 <= 0)%Q) by (unfold Qle; simpl; lia).
  assert (H1 : (0 <= inject_Z (Z.of_nat (length (questionBank revealed_state)) - 1))%Q)
    by (unfold Qle; simpl; lia).
  pose proof (persist_hydrate_round_trip savedAt revealed_state s0 0
                eq_refl eq_refl eq_refl eq_refl eq_refl H0 H1)
    as (Hb & _ & _ & Hs & Hsel & _).
  split; [exact Hb|]. split; [exact Hs | exact Hsel].
Defined.

(** ** The choices as rendered *)

Lemma selected_is_whole (i : nat) (a : Q) :
  (a == inject_Z (Qfloor a))%Q -> (0 <= a)%Q ->
  selected_is i (JNum (Fin a)) = true <-> i = Z.to_nat (Qfloor a).
Proof.
  intros Ha H0.
  assert (Hf : (0 <= Qfloor a)%Z).
  { rewrite Ha in H0. unfold Qle in H0. simpl in H0. lia. }
  unfold selected_is, num_of_nat, num_eqb. rewrite Qeq_bool_iff. split.
  - intros E.
    assert (E' : (inject_Z (Z.of_nat i) == inject_Z (Qfloor a))%Q)
      by (eapply Qeq_trans; [exact E | exact Ha]).
    unfold Qeq in E'. simpl in E'. lia.
  - intros ->. rewrite Z2Nat.id by done. by symmetry.
Qed.

Lemma selected_is_fraction (i : nat) (a : Q) :
  Number_isInteger_num (Fin a) = false -> selected_is i (JNum (Fin a)) = false.
Proof.
  intros Hn. destruct (selected_is i (JNum (Fin a))) eqn:E; [|done].
  unfold selected_is, num_of_nat, num_eqb in E. apply Qeq_bool_iff in E.
  assert (Hi : Number_isInteger_num (Fin a) = true).
  { unfold Number_isInteger_num. apply Qeq_bool_iff.
    rewrite <- E, Qfloor_Z. reflexivity. }
  congruence.
Qed.

(** The buttons of an accepted question, one for each choice.  Before the
    reveal no button depends on the answer: the selected choice is
    highlighted and nothing is coloured.  After the reveal of a whole answer
    exactly one button, that of one of the choices, is marked as correct,
    and the selected choice is marked as wrong exactly when it is another
    one.  After the reveal of an answer that is no whole number no button is
    marked as correct. *)
Theorem choice_marking (s : State) (q : jsval) :
  isValidQuestion q = true ->
  exists cs a,
    get q f_choices = JArr cs /\ get q f_answer = JNum (Fin a) /\
    length (choiceButtons s q) = length cs /\
    (forall i c, cs !! i = Some c ->
       exists v t, choiceButtons s q !! i = Some (c, v, t) /\
                   v = choiceVariant s q i /\ t = choiceTint s q i) /\
    (showAnswer s = false ->
     forall i,
       choiceTint s q i = plain /\
       choiceVariant s q i
       = (if bool_decide (selected s = Some i) then v_default else v_outline)) /\
    (showAnswer s = true -> Number_isInteger_num (Fin a) = true ->
     exists n, (n < length cs)%nat /\
       forall i,
         (choiceTint s q i = green <-> i = n) /\
         (choiceVariant s q i = v_default <-> i = n) /\
         (choiceTint s q i = red <-> i <> n /\ selected s = Some i) /\
         (choiceVariant s q i = v_destructive <-> i <> n /\ selected s = Some i)) /\
    (showAnswer s = true -> Number_isInteger_num (Fin a) = false ->
     forall i,
       choiceTint s q i <> green /\ choiceVariant s q i <> v_default /\
       (choiceTint s q i = red <-> selected s = Some i)).
Proof.
  intros (props & cs & a & -> & Hcs & Hstr & Ha & H0 & H1)%accepted_fields.
  exists cs, a. split; [done|]. split; [done|].
  unfold choiceButtons, choiceVariant, choiceTint. rewrite Hcs, Ha.
  split; [by rewrite length_imap|]. split.
  { intros i c Hi. eexists _, _. split; [|done].
    by rewrite list_lookup_imap, Hi. }
  split; [|split].
  - intros -> i. done.
  - intros -> Hw.
    assert (Hq : (a == inject_Z (Qfloor a))%Q) by (by apply Qeq_bool_iff).
    assert (Hf0 : (0 <= Qfloor a)%Z).
    { rewrite Hq in H0. unfold Qle in H0. simpl in H0. lia. }
    exists (Z.to_nat (Qfloor a)). split.
    { rewrite Hq in H1. rewrite <- Zlt_Qlt in H1. lia. }
    intros i. pose proof (selected_is_whole i a Hq H0) as Hsel.
    destruct (selected_is i (JNum (Fin a))) eqn:E; simpl.
    + assert (Hi : i = Z.to_nat (Qfloor a)) by (by apply Hsel).
      repeat split; try done; intros [? ?]; done.
    + assert (Hi : i <> Z.to_nat (Qfloor a)).
      { intros Hi. apply Hsel in Hi. discriminate. }
      destruct (bool_decide (selected s = Some i)) eqn:D.
      * apply bool_decide_eq_true in D. repeat split; done.
      * apply bool_decide_eq_false in D.
        repeat split; try done; intros [? ?]; done.
  - intros -> Hw i. rewrite (selected_is_fraction i a Hw). simpl.
    destruct (bool_decide (selected s = Some i)) eqn:D.
    + apply bool_decide_eq_true in D. repeat split; done.
    + apply bool_decide_eq_false in D. repeat split; done.
Qed.

Lemma choice_marking_witness :
  isValidQuestion good = true /\
  forall s, exists cs a,
    get good f_choices = JArr cs /\ get good f_answer = JNum (Fin a) /\
    length (choiceButtons s good) = length cs.
Proof.
  split; [reflexivity|]. intros s.
  destruct (choice_marking s good eq_refl) as (cs & a & Hc & Ha & Hl & _).
  exists cs, a. split; [exact Hc|]. split; [exact Ha | exact Hl].
Defined.

(** ** An accepted import *)

Section ImportFacts.

Variable random : nat -> Q.
Variable localeCompare : string -> string -> comparison.

(** An import of a sequence of accepted questions that is not empty, given
    bare or as the [questions] of an object, starts afresh whatever the
    state before: the bank is a rearrangement of the imported sequence, one
    of its questions is shown with Check Answer disabled, nothing is
    selected or revealed, the statistics and the summary are empty and the
    message is cleared.  Only the accuracy flag survives. *)
Theorem import_starts_afresh (data : jsval) (qs : list jsval) (k : nat)
    (s : State) :
  data = JArr qs \/ (Array_isArray data = false /\ get data f_questions = JArr qs) ->
  qs <> [] ->
  forallb isValidQuestion qs = true ->
  questionBank (handleImportJSON random (Some (Readable (Parsed data))) k s).1
    ≡ₚ qs /\
  index (handleImportJSON random (Some (Readable (Parsed data))) k s).1 = Fin 0 /\
  selected (handleImportJSON random (Some (Readable (Parsed data))) k s).1 = None /\
  showAnswer (handleImportJSON random (Some (Readable (Parsed data))) k s).1 = false /\
  showExplanation (handleImportJSON random (Some (Readable (Parsed data))) k s).1
  = false /\
  stats (handleImportJSON random (Some (Readable (Parsed data))) k s).1 = JObj [] /\
  importError (handleImportJSON random (Some (Readable (Parsed data))) k s).1 = "" /\
  showAccuracy (handleImportJSON random (Some (Readable (Parsed data))) k s).1
  = showAccuracy s /\
  accuracyByTopic localeCompare
    (stats (handleImportJSON random (Some (Readable (Parsed data))) k s).1) = [] /\
  exists q,
    q ∈ qs /\
    render (handleImportJSON random (Some (Readable (Parsed data))) k s).1
    = QuestionCard q true.
Proof.
  intros Hdata Hne Hv.
  assert (Hlen : (length qs =? 0)%nat = false).
  { apply Nat.eqb_neq. by destruct qs. }
  assert (Himp : handleImportJSON random (Some (Readable (Parsed data))) k s
                 = (mkState (shuffleList random k qs).1 (Fin 0) None false false
                      (JObj []) (showAccuracy s) "",
                    (shuffleList random k qs).2)).
  { unfold handleImportJSON, safeParseJSON.
    destruct Hdata as [-> | [Harr Hq]].
    - simpl Array_isArray. cbv iota. rewrite Hlen, Hv. simpl negb. cbv iota.
      by destruct (shuffleList random k qs).
    - rewrite Harr, Hq, Hlen, Hv. simpl negb. cbv iota.
      by destruct (shuffleList random k qs). }
  rewrite Himp. cbn [fst questionBank index selected showAnswer showExplanation
                     stats importError showAccuracy].
  pose proof (shuffleList_perm random k qs) as Hperm.
  split; [exact Hperm|]. do 8 (split; [done|]).
  set (s' := mkState (shuffleList random k qs).1 (Fin 0) None false false
               (JObj []) (showAccuracy s) "").
  assert (HI : Inv s').
  { split; try done.
    - simpl. by rewrite (forallb_perm _ _ _ Hperm).
    - apply index_in_bank_zero. }
  destruct (shows_question s' HI) as (q & _ & Hin & _ & Hr).
  - apply (isInteger_inject 0).
  - simpl. intros E. rewrite E in Hperm. symmetry in Hperm.
    by apply Permutation_nil_r in Hperm.
  - assert (Hp : panel_ok s' = true).
    { unfold panel_ok. simpl. apply orb_true_r. }
    rewrite Hp in Hr.
    exists q. split; [by rewrite <- Hperm|]. exact Hr.
Qed.

End ImportFacts.

Lemma import_starts_afresh_witness :
  forallb isValidQuestion [good] = true /\
  forall random s k,
    questionBank
      (handleImportJSON random (Some (Readable (Parsed (JArr [good])))) k s).1
    ≡ₚ [good].
Proof.
  split; [reflexivity|]. intros random s k.
  assert (Hne : [good] <> []) by discriminate.
  exact (proj1 (import_starts_afresh random String.compare (JArr [good]) [good]
                  k s (or_introl eq_refl) Hne eq_refl)).
Defined.

(** ** The accuracy panel *)

Lemma stats_ok_render st : stats_ok st = true -> stats_render st = true.
Proof.
  destruct st as [| | | | | |l]; try discriminate.
  unfold stats_ok, stats_render. cbn [own_entries].
  rewrite !forallb_forall. intros H e He.
  destruct (topic_ok_object _ (H e He)) as (c & t & -> & _). done.
Qed.

Section PanelFacts.

Variable ToString : jsval -> string.
Variable StringToNumber : string -> jsnum.
Variable inherits : jsval -> string -> bool.
Variable localeCompare : string -> string -> comparison.

#[local] Abbreviation panel' := (accuracyPanel ToString StringToNumber localeCompare).

(** The panel is rendered exactly when the question card is rendered and
    the accuracy flag is set: never beside the notice that no question is
    loaded.  Its lines carry the topics of the summary, in its order.  After
    Reset Progress a rendered panel has no line.  After Check Answer on an
    accepted question and statistics within the invariant, for a topic that
    is no member of a built-in prototype, the card is rendered, and a panel
    that is shown lists the topic of the question with whole counters, the
    total above zero and the correct count at most the total: the note that
    no question is answered yet is gone. *)
Theorem panel_lists_checked_topic (s : State) (i : nat) :
  isValidQuestion (currentQuestion s) = true ->
  selected s = Some i ->
  stats_ok (stats s) = true ->
  lookup inherits (stats s)
    (to_string ToString (get (currentQuestion s) f_topic)) <> Inherited ->
  (forall s0, panel' s0 <> None <->
              showAccuracy s0 = true /\ exists q d, render s0 = QuestionCard q d) /\
  (forall s0, render s0 = NoQuestionsLoaded -> panel' s0 = None) /\
  (forall s0 lines, panel' s0 = Some lines ->
     (fun l => l.1.1.1) <$> lines = fst <$> accuracyByTopic localeCompare (stats s0)) /\
  (forall s0, panel' (handleResetProgress s0) = None \/
              panel' (handleResetProgress s0) = Some []) /\
  render (handleCheck ToString StringToNumber inherits s)
  = QuestionCard (currentQuestion s) true /\
  (showAccuracy s = true ->
   exists lines c t,
     panel' (handleCheck ToString StringToNumber inherits s) = Some lines /\
     (to_string ToString (get (currentQuestion s) f_topic),
      JNum c, JNum t,
      accuracy ToString StringToNumber
        (JObj [("total", JNum t); ("correct", JNum c)])) ∈ lines /\
     whole c = true /\ whole t = true /\
     num_gtb t (Fin 0) = true /\ num_geb t c = true).
Proof.
  intros Hv Hsel Hok Hlk.
  assert (Hq : truthy (currentQuestion s) = true).
  { destruct (accepted_fields _ Hv) as (props & _ & _ & -> & _). done. }
  set (k := to_string ToString (get (currentQuestion s) f_topic)) in *.
  set (b := selected_is i (get (currentQuestion s) f_answer)).
  assert (Hc : handleCheck ToString StringToNumber inherits s
               = mkState (questionBank s) (index s) (selected s) true false
                   (recordAnswer ToString StringToNumber inherits (stats s) k b)
                   (showAccuracy s) (importError s)).
  { unfold handleCheck. by rewrite Hq, Hsel. }
  assert (Hrender : render (handleCheck ToString StringToNumber inherits s)
                    = QuestionCard (currentQuestion s) true).
  { rewrite Hc. unfold render.
    change (currentQuestion (mkState _ _ _ _ _ _ _ _)) with (currentQuestion s).
    rewrite Hq, (accepted_card_ok _ _ Hv).
    rewrite (stats_render_panel_ok
               (mkState (questionBank s) (index s) (selected s) true false
                  (recordAnswer ToString StringToNumber inherits (stats s) k b)
                  (showAccuracy s) (importError s))).
    - simpl. by rewrite orb_true_r.
    - simpl. by apply stats_ok_render, recordAnswer_ok. }
  split; [|split; [|split; [|split; [|split]]]].
  - intros s0. unfold accuracyPanel.
    destruct (render s0) as [|q d|]; [split; [done | by intros (_ & ? & ? & ?)]
                                     | | split; [done | by intros (_ & ? & ? & ?)]].
    destruct (showAccuracy s0); split; try done.
    + intros _. eauto.
    + by intros [? _].
  - intros s0 Hr. unfold accuracyPanel. by rewrite Hr.
  - intros s0 lines. unfold accuracyPanel.
    destruct (render s0); try done.
    destruct (showAccuracy s0); [|done]. intros [= <-].
    rewrite <- list_fmap_compose. by apply list_fmap_ext.
  - intros s0. unfold accuracyPanel.
    destruct (render (handleResetProgress s0)); try by left.
    destruct (showAccuracy (handleResetProgress s0)); [by right | by left].
  - exact Hrender.
  - intros Hacc.
    assert (Hent : exists c t,
              whole c = true /\ whole t = true /\ num_geb t c = true /\
              recordAnswer ToString StringToNumber inherits (stats s) k b
              = JObj (obj_set (own_entries (stats s)) k
                        (JObj [("total", JNum (num_add t (num_of_nat 1)));
                               ("correct",
                                JNum (num_add c
                                        (num_of_nat (if b then 1 else 0))))]))).
    { assert (Hzero : whole (Fin 0) = true) by reflexivity.
      assert (Hge : num_geb (Fin 0) (Fin 0) = true) by reflexivity.
      unfold recordAnswer.
      destruct (lookup inherits (stats s) k) as [v| |] eqn:E; [|done|].
      - assert (Hv' : topic_ok v = true).
        { unfold lookup in E. destruct (own_prop (stats s) k) as [v'|] eqn:Eo;
            [|by destruct (inherits (stats s) k)].
          injection E as ->.
          destruct (stats s) as [| | | | | |props]; try discriminate.
          simpl in Eo, Hok. apply assoc_elem, list_elem_of_In in Eo.
          rewrite forallb_forall in Hok. apply (Hok _ Eo). }
        apply topic_ok_object in Hv' as (c & t & Hgc & Hgt & Hwc & Hwt & Hle & Htr).
        exists c, t. rewrite Htr, Hgc, Hgt. done.
      - exists (Fin 0), (Fin 0). done. }
    destruct Hent as (c & t & Hwc & Hwt & Hle & Hrec).
    exists ((fun e => (e.1, get e.2 f_correct, get e.2 f_total,
                       accuracy ToString StringToNumber e.2))
              <$> accuracyByTopic localeCompare
                    (recordAnswer ToString StringToNumber inherits (stats s) k b)),
           (num_add c (num_of_nat (if b then 1 else 0))),
           (num_add t (num_of_nat 1)).
    split; [|split; [|split; [|split; [|split]]]].
    + unfold accuracyPanel. rewrite Hrender, Hc. simpl. by rewrite Hacc.
    + set (e := JObj [("total", JNum (num_add t (num_of_nat 1)));
                      ("correct",
                       JNum (num_add c (num_of_nat (if b then 1 else 0))))]).
      apply (list_elem_of_fmap_2
               (fun e0 : string * jsval =>
                  (e0.1, get e0.2 f_correct, get e0.2 f_total,
                   accuracy ToString StringToNumber e0.2)) _ (k, e)).
      unfold accuracyByTopic. rewrite sort_entries_perm, Hrec.
      cbn [truthy own_entries]. apply list_elem_of_filter. split.
      * apply whole_spec in Hwt as (qt & zt & -> & Hqt & Hzt).
        unfold answered, e. simpl.
        apply negb_true_iff, Qle_bool_false.
        rewrite Hqt. unfold Qlt. simpl. lia.
      * apply assoc_elem, assoc_obj_set.
    + apply whole_add_bit. exact Hwc.
    + apply (whole_add_bit t true). exact Hwt.
    + apply whole_spec in Hwt as (qt & zt & -> & Hqt & Hzt). simpl.
      apply negb_true_iff, Qle_bool_false.
      rewrite Hqt. unfold Qlt. simpl. lia.
    + apply whole_spec in Hwt as (qt & zt & -> & Hqt & Hzt).
      apply whole_spec in Hwc as (qc & zc & -> & Hqc & Hzc).
      simpl in *. apply Qle_bool_iff in Hle. apply Qle_bool_iff.
      rewrite Hqt, Hqc in *. unfold Qle in *. simpl in *. destruct b; simpl; lia.
Qed.

End PanelFacts.

Lemma panel_lists_checked_topic_witness :
  isValidQuestion (currentQuestion answering_state) = true /\
  stats_ok (stats answering_state) = true /\
  forall ToString StringToNumber inherits localeCompare,
    lookup inherits (stats answering_state)
      (to_string ToString (get (currentQuestion answering_state) f_topic))
    <> Inherited /\
    exists lines c t,
      accuracyPanel ToString StringToNumber localeCompare
        (handleCheck ToString StringToNumber inherits answering_state)
      = Some lines /\
      (to_string ToString (get (currentQuestion answering_state) f_topic),
       JNum c, JNum t,
       accuracy ToString StringToNumber
         (JObj [("total", JNum t); ("correct", JNum c)])) ∈ lines /\
      num_gtb t (Fin 0) = true.
Proof.
  split; [reflexivity|]. split; [reflexivity|].
  intros TS SN inh cmp.
  assert (Hlk : lookup inh (stats answering_state)
                  (to_string TS (get (currentQuestion answering_state) f_topic))
                <> Inherited) by discriminate.
  split; [exact Hlk|].
  destruct (panel_lists_checked_topic TS SN inh cmp answering_state 1
              eq_refl eq_refl eq_refl Hlk) as (_ & _ & _ & _ & _ & Hp).
  destruct (Hp eq_refl) as (lines & c & t & Hl & Hin & _ & _ & Hgt & _).
  exists lines, c, t. split; [exact Hl|]. split; [exact Hin | exact Hgt].
Defined.

(** ** The store of the earlier component *)

(** The earlier component reads back what it wrote: a bank that is an array
    without [undefined] and numbers that are not finite, whatever its
    elements, and an index that is a finite number come back from a write
    and a load, into any state, with the selection and the reveal of the
    loading state.  No element is looked at: the bank may be empty or hold
    what is no question.  A store that holds no JSON makes the load fail,
    where the later component keeps its state. *)
Theorem jsx_persist_hydrate_round_trip (s s0 : Jsx.State) (l : list jsval) (p : Q) :
  Jsx.questionBank s = JArr l ->
  forallb json_clean l = true ->
  Jsx.index s = JNum (Fin p) ->
  (exists s',
     Jsx.hydrate (jsx_persist s) s0 = Some s' /\
     Jsx.questionBank s' = JArr l /\
     (exists p', Jsx.index s' = JNum (Fin p') /\ (p' == p)%Q) /\
     Jsx.selected s' = Jsx.selected s0 /\
     Jsx.showAnswer s' = Jsx.showAnswer s0) /\
  Jsx.hydrate (Holds SyntaxError) s0 = None /\
  forall s1 : State, hydrate (Holds SyntaxError) s1 = s1.
Proof.
  intros Hb Hc Hi. split; [|done].
  unfold jsx_persist. rewrite Hb, Hi. simpl json_value.
  rewrite (json_value_clean_list _ Hc). unfold Jsx.hydrate.
  change (get (JObj _) f_questionBank) with (JArr l).
  change (get (JObj _) f_index) with (JNum (Fin p)).
  cbn [truthy]. eexists. split; [reflexivity|]. cbn.
  split; [done|]. split; [|done].
  destruct (Qeq_bool p 0) eqn:E; simpl.
  - apply Qeq_bool_iff in E. exists (inject_Z 0). split; [done|]. by symmetry.
  - exists p. split; [done | reflexivity].
Qed.

Lemma jsx_persist_hydrate_round_trip_witness :
  forallb json_clean [good; JNull] = true /\
  forall s0, exists s',
    Jsx.hydrate (jsx_persist (Jsx.mkState (JArr [good; JNull]) (jnat 1) None false)) s0
    = Some s' /\
    Jsx.questionBank s' = JArr [good; JNull].
Proof.
  split; [reflexivity|]. intros s0.
  destruct (jsx_persist_hydrate_round_trip
              (Jsx.mkState (JArr [good; JNull]) (jnat 1) None false) s0
              [good; JNull] (inject_Z 1) eq_refl eq_refl eq_refl)
    as [(s' & Hh & Hq & _) _].
  exists s'. split; [exact Hh | exact Hq].
Defined.
